(** * cook_book.py: recipe parser, shopping-list aggregator, file merger

    A shallow embedding of [src/cook_book.py] and the properties of its three
    operations: [read_cook_book], [get_shop_list_by_dishes], [merge_files].

    Python text is a sequence of Unicode code points; a Python [int] is
    unbounded; a [dict] keeps its keys in insertion order.  Exceptions are
    values of [exception] carried by [result]. *)

From Stdlib Require Import ZArith NArith Ascii String Lia Permutation Sorted.
From stdpp Require Import base numbers option list.

Set Default Proof Using "Type".

(* ===================================================================== *)
(** * Text: [str] and the builtins the program calls on it               *)
(* ===================================================================== *)

(** A character is its code point, a [str] the list of its characters. *)
Definition char := N.
Definition str := list char.

(** String literals of the source are written as UTF-8 literals and decoded
    into code points by [u]. *)
Fixpoint utf8_go (need : nat) (acc : N) (bs : list N) : str :=
  match bs with
  | [] => []
  | b :: bs' =>
      match need with
      | O =>
          if (b <? 128)%N then b :: utf8_go 0 0%N bs'
          else if (b <? 224)%N then utf8_go 1 (b - 192)%N bs'
          else if (b <? 240)%N then utf8_go 2 (b - 224)%N bs'
          else utf8_go 3 (b - 240)%N bs'
      | S k =>
          let acc' := (acc * 64 + (b - 128))%N in
          match k with
          | O => acc' :: utf8_go 0 0%N bs'
          | S _ => utf8_go k acc' bs'
          end
      end
  end.

Definition u (s : string) : str :=
  utf8_go 0 0%N (map N_of_ascii (list_ascii_of_string s)).

(** [str.isspace] of one character, the set [str.strip] removes
    (CPython's [_PyUnicode_IsWhitespace]). *)
Definition isspace (c : char) : bool :=
  ((9 <=? c) && (c <=? 13) || (28 <=? c) && (c <=? 32)
   || (c =? 133) || (c =? 160) || (c =? 5760)
   || (8192 <=? c) && (c <=? 8202)
   || (c =? 8232) || (c =? 8233) || (c =? 8239) || (c =? 8287)
   || (c =? 12288))%N.

Fixpoint lstrip (s : str) : str :=
  match s with
  | c :: s' => if isspace c then lstrip s' else s
  | [] => []
  end.

Definition rstrip (s : str) : str := rev (lstrip (rev s)).

(** [s.strip()] *)
Definition strip (s : str) : str := rstrip (lstrip s).

(** [s.startswith(p)] *)
Fixpoint startswith (p s : str) : bool :=
  match p, s with
  | [], _ => true
  | a :: p', b :: s' => (a =? b)%N && startswith p' s'
  | _ :: _, [] => false
  end.

(** [s.split(sep)] for a non-empty [sep]: the leftmost occurrence of [sep]
    ends the current field and scanning resumes after it.  [skip] counts the
    characters of a matched separator still to be passed over, [cur] holds
    the current field reversed. *)
Fixpoint split_go (sep : str) (skip : nat) (cur : str) (s : str) : list str :=
  match s with
  | [] => [rev cur]
  | c :: s' =>
      match skip with
      | S k => split_go sep k cur s'
      | O =>
          if startswith sep s
          then rev cur :: split_go sep (length sep - 1) [] s'
          else split_go sep 0 (c :: cur) s'
      end
  end.

Definition split (sep s : str) : list str := split_go sep 0 [] s.

(** Code points of DIGIT ZERO of every decimal-digit run (general category
    Nd, Unicode 14.0 as shipped with CPython 3.11); each run holds the ten
    digits 0..9 in order. *)
Definition decimal_zeros : list N :=
  [48; 1632; 1776; 1984; 2406; 2534; 2662; 2790; 2918; 3046; 3174; 3302;
   3430; 3558; 3664; 3792; 3872; 4160; 4240; 6112; 6160; 6470; 6608; 6784;
   6800; 6992; 7088; 7232; 7248; 42528; 43216; 43264; 43472; 43504; 43600;
   44016; 65296; 66720; 68912; 69734; 69872; 69942; 70096; 70384; 70736;
   70864; 71248; 71360; 71472; 71904; 72016; 72784; 73040; 73120; 92768;
   92864; 93008; 120782; 120792; 120802; 120812; 120822; 123200; 123632;
   125264; 130032]%N.

(** [Py_UNICODE_TODECIMAL] *)
Definition Py_UNICODE_TODECIMAL (c : char) : option N :=
  match List.find (fun z => (z <=? c) && (c <? z + 10))%N decimal_zeros with
  | Some z => Some (c - z)%N
  | None => None
  end.

(** C-level [Py_ISSPACE], used by [PyLong_FromString]. *)
Definition Py_ISSPACE (c : char) : bool :=
  ((9 <=? c) && (c <=? 13) || (c =? 32))%N.

(** One character of [_PyUnicode_TransformDecimalAndSpaceToASCII]: ASCII is
    kept, other white space becomes a blank, other decimal digits become
    ASCII digits, anything else becomes ['?'] (which no integer literal
    contains). *)
Definition to_ascii (c : char) : char :=
  if (c <? 128)%N then c
  else if isspace c then 32%N
  else match Py_UNICODE_TODECIMAL c with
       | Some d => (48 + d)%N
       | None => 63%N
       end.

Fixpoint skip_spaces (s : str) : str :=
  match s with
  | c :: s' => if Py_ISSPACE c then skip_spaces s' else s
  | [] => []
  end.

Definition is_digit (c : char) : bool := ((48 <=? c) && (c <=? 57))%N.

(** The digit scan of [long_from_string_base] for base 10: digits and single
    underscores between them; [prev] is the previous character, [digits]
    counts the digits seen.  Returns the value, the digit count and the
    unread rest; [None] on a doubled or trailing underscore. *)
Fixpoint scan_digits (prev : char) (val : N) (digits : nat) (s : str)
  : option (N * nat * str) :=
  match s with
  | c :: s' =>
      if is_digit c then scan_digits c (10 * val + (c - 48))%N (S digits) s'
      else if (c =? 95)%N then
        if (prev =? 95)%N then None else scan_digits c val digits s'
      else if (prev =? 95)%N then None else Some (val, digits, s)
  | [] => if (prev =? 95)%N then None else Some (val, digits, [])
  end.

(** [sys.get_int_max_str_digits()], default value. *)
Definition int_max_str_digits : nat := 4300.

(** [int(s)] for a [str] argument; [None] stands for [ValueError]. *)
Definition int (s : str) : option Z :=
  let a := skip_spaces (map to_ascii s) in
  let '(sign, b) :=
    match a with
    | c :: r =>
        if (c =? 43)%N then (1%Z, r)
        else if (c =? 45)%N then ((-1)%Z, r)
        else (1%Z, a)
    | [] => (1%Z, a)
    end in
  if startswith [95%N] b then None
  else
    match scan_digits 0%N 0%N 0 b with
    | None => None
    | Some (v, digits, rest) =>
        if (digits =? 0)%nat then None
        else if (int_max_str_digits <? digits)%nat then None
        else
          match skip_spaces rest with
          | [] => Some (sign * Z.of_N v)%Z
          | _ :: _ => None
          end
    end.

(** [str(n)] for a non-negative [int] (the [{len(lines)}] of an f-string). *)
Fixpoint str_of_uint (d : Decimal.uint) : str :=
  match d with
  | Decimal.Nil => []
  | Decimal.D0 d' => 48%N :: str_of_uint d'
  | Decimal.D1 d' => 49%N :: str_of_uint d'
  | Decimal.D2 d' => 50%N :: str_of_uint d'
  | Decimal.D3 d' => 51%N :: str_of_uint d'
  | Decimal.D4 d' => 52%N :: str_of_uint d'
  | Decimal.D5 d' => 53%N :: str_of_uint d'
  | Decimal.D6 d' => 54%N :: str_of_uint d'
  | Decimal.D7 d' => 55%N :: str_of_uint d'
  | Decimal.D8 d' => 56%N :: str_of_uint d'
  | Decimal.D9 d' => 57%N :: str_of_uint d'
  end.

Definition str_of_nat (n : nat) : str := str_of_uint (Nat.to_uint n).

(** [needle in hay] *)
Definition contains (needle hay : str) : Prop :=
  exists pre post, hay = pre ++ needle ++ post.

(* ===================================================================== *)
(** * Exceptions, results, dictionaries                                  *)
(* ===================================================================== *)

(** The exceptions the program distinguishes: its handlers test for
    [FileNotFoundError] first and for [Exception] second.  Every other
    exception class is [OtherException cls msg]. *)
Inductive exception :=
| FileNotFoundError (msg : str)
| ValueError (msg : str)
| OtherException (cls : str) (msg : str).

(** [str(e)], what [{e}] prints in an f-string. *)
Definition exc_str (e : exception) : str :=
  match e with
  | FileNotFoundError msg => msg
  | ValueError msg => msg
  | OtherException _ msg => msg
  end.

Inductive result (A : Type) :=
| Raise (e : exception)
| Return (a : A).
Arguments Raise {A} e.
Arguments Return {A} a.

(** A [dict]: the items in insertion order, keys unique. *)
Definition dict (K V : Type) := list (K * V).

(** [d.get(k)]; [k in d] is [dict_in]. *)
Fixpoint dict_get {K V} `{EqDecision K} (k : K) (d : dict K V) : option V :=
  match d with
  | [] => None
  | (k', v) :: d' => if decide (k = k') then Some v else dict_get k d'
  end.

Definition dict_in {K V} `{EqDecision K} (k : K) (d : dict K V) : bool :=
  match dict_get k d with Some _ => true | None => false end.

(** [d[k] = v]: an existing key keeps its position, a new one goes last. *)
Fixpoint dict_set {K V} `{EqDecision K} (k : K) (v : V) (d : dict K V) : dict K V :=
  match d with
  | [] => [(k, v)]
  | (k', v') :: d' =>
      if decide (k = k') then (k', v) :: d' else (k', v') :: dict_set k v d'
  end.

(** Sequencing of computations that may raise. *)
Definition rbind {A B} (m : result A) (k : A -> result B) : result B :=
  match m with
  | Raise e => Raise e
  | Return a => k a
  end.

Notation "x <- m ;; k" := (rbind m (fun x => k))
  (at level 100, m at next level, right associativity).

(* ===================================================================== *)
(** * Task 1: [read_cook_book]                                           *)
(* ===================================================================== *)

(** An ingredient: the dict
    [{'ingredient_name': ..., 'quantity': ..., 'measure': ...}]. *)
Record Ingredient := mkIngredient {
  ingredient_name : str;
  quantity : Z;
  measure : str
}.

(** The cook book: dish name to ingredient list. *)
Definition CookBook := dict str (list Ingredient).

(** [file.readline()] on the text still unread (decoded, line ends
    already translated to ["\n"]): the line up to and with its newline and
    the text after it; the empty string at the end of the text. *)
Fixpoint readline (file : str) : str * str :=
  match file with
  | [] => ([], [])
  | c :: file' =>
      if (c =? 10)%N then ([c], file')
      else let '(line, rest) := readline file' in (c :: line, rest)
  end.

(** A name as the messages quote it. *)
Definition quoted (name : str) : str := u "'" ++ name ++ u "'".

Definition msg_bad_count (dish_name : str) : str :=
  u "Некорректное количество ингредиентов для блюда '" ++ dish_name ++ u "'".

Definition msg_too_few (dish_name : str) : str :=
  u "Недостаточно ингредиентов для блюда '" ++ dish_name ++ u "'".

Definition msg_bad_format (dish_name ingredient_line : str) : str :=
  u "Некорректный формат ингредиента для блюда '" ++ dish_name ++ u "': "
    ++ ingredient_line.

Definition msg_bad_quantity (ingredient_name dish_name : str) : str :=
  u "Некорректное количество для ингредиента '" ++ ingredient_name
    ++ u "' в блюде '" ++ dish_name ++ u "'".

Definition msg_file_not_found (file_path : str) : str :=
  u "Файл '" ++ file_path ++ u "' не найден.".

Definition msg_read_error (file_path : str) (e : exception) : str :=
  u "Ошибка при чтении файла '" ++ file_path ++ u "': " ++ exc_str e.

(** The [for _ in range(ingredient_count)] loop (lines 26-42), [k]
    iterations to go. *)
Fixpoint read_ingredients (dish_name : str) (k : nat)
    (ingredients : list Ingredient) (file : str)
  : result (list Ingredient * str) :=
  match k with
  | O => Return (ingredients, file)
  | S k' =>
      let '(raw, file') := readline file in
      let ingredient_line := strip raw in
      match ingredient_line with
      | [] => Raise (ValueError (msg_too_few dish_name))
      | _ :: _ =>
          match split (u " | ") ingredient_line with
          | [ingredient_name; quantity_str; measure] =>
              match int quantity_str with
              | None =>
                  Raise (ValueError (msg_bad_quantity ingredient_name dish_name))
              | Some quantity =>
                  read_ingredients dish_name k'
                    (ingredients ++ [mkIngredient ingredient_name quantity measure])
                    file'
              end
          | _ => Raise (ValueError (msg_bad_format dish_name ingredient_line))
          end
      end
  end.

(** One pass through the body of [while True] (lines 17-44): [Return None]
    is [break], [Return (Some (cook_book', file'))] goes round again. *)
Definition read_dish (cook_book : CookBook) (file : str)
  : result (option (CookBook * str)) :=
  let '(raw, file1) := readline file in
  let dish_name := strip raw in
  match dish_name with
  | [] => Return None
  | _ :: _ =>
      let '(raw_count, file2) := readline file1 in
      match int (strip raw_count) with
      | None => Raise (ValueError (msg_bad_count dish_name))
      | Some ingredient_count =>
          match read_ingredients dish_name (Z.to_nat ingredient_count) [] file2 with
          | Raise e => Raise e
          | Return (ingredients, file3) =>
              let '(_, file4) := readline file3 in
              Return (Some (dict_set dish_name ingredients cook_book, file4))
          end
      end
  end.

(** The [while True] loop.  Every pass that does not leave the loop reads at
    least one character, so [S (length file)] passes always suffice
    ([read_loop_total]); [None] is fuel exhausted. *)
Fixpoint read_loop (fuel : nat) (cook_book : CookBook) (file : str)
  : option (result CookBook) :=
  match fuel with
  | O => None
  | S fuel' =>
      match read_dish cook_book file with
      | Raise e => Some (Raise e)
      | Return None => Some (Return cook_book)
      | Return (Some (cook_book', file')) => read_loop fuel' cook_book' file'
      end
  end.

(** [read_cook_book(file_path)].  [open_read] is the file system:
    [open(file_path, 'r', encoding='utf-8')] either raises or gives a
    stream.  [Return text] describes a file that opens and whose bytes all
    decode as UTF-8 to [text]: on such a file no call of [readline] fails.
    A file with a byte sequence that does not decode is not described by
    [Return text]: there [readline] raises [UnicodeDecodeError] inside the
    loop, at a place that depends on the buffering of the stream. *)
Definition read_cook_book (open_read : str -> result str) (file_path : str)
  : option (result CookBook) :=
  let body :=
    match open_read file_path with
    | Raise e => Some (Raise e)
    | Return text => read_loop (S (length text)) [] text
    end in
  match body with
  | Some (Raise (FileNotFoundError _)) =>
      Some (Raise (FileNotFoundError (msg_file_not_found file_path)))
  | Some (Raise e) => Some (Raise (ValueError (msg_read_error file_path e)))
  | Some (Return cook_book) => Some (Return cook_book)
  | None => None
  end.

(** The parser has got to the start of a dish block: [(cook_book, file)] is
    the state of the loop after some number of complete passes over
    [text]. *)
Inductive reaches (text : str) : CookBook -> str -> Prop :=
| reaches_start : reaches text [] text
| reaches_next cook_book file cook_book' file' :
    reaches text cook_book file ->
    read_dish cook_book file = Return (Some (cook_book', file')) ->
    reaches text cook_book' file'.

(** The text left after [i] calls of [readline], and the [i]-th line. *)
Fixpoint after_lines (i : nat) (file : str) : str :=
  match i with
  | O => file
  | S i' => after_lines i' (readline file).2
  end.

Definition nth_line (i : nat) (file : str) : str :=
  (readline (after_lines i file)).1.

(** An ingredient line is due at the head of [file] and cannot be had:
    the stream has ended, or the line does not split into exactly three
    fields on [" | "], or its quantity field is not an integer. *)
Definition malformed_ingredient (file : str) : Prop :=
  file = []
  \/ length (split (u " | ") (strip (readline file).1)) <> 3
  \/ exists name quantity_str measure,
       split (u " | ") (strip (readline file).1) = [name; quantity_str; measure]
       /\ int quantity_str = None.

(** A dish block starts at the head of [file] and is malformed: its count
    line is not an integer, or one of the declared ingredient lines is
    malformed. *)
Definition malformed_block (file : str) : Prop :=
  strip (readline file).1 <> []
  /\ match int (strip (readline (readline file).2).1) with
     | None => True
     | Some n =>
         exists i, i < Z.to_nat n
           /\ malformed_ingredient (after_lines i (readline (readline file).2).2)
     end.

(** The ingredient record was read from a line of [text] whose quantity
    field is [quantity_str]. *)
Definition read_from (text : str) (quantity_str : str) (ingredient : Ingredient) : Prop :=
  exists j,
    split (u " | ") (strip (nth_line j text))
    = [ingredient_name ingredient; quantity_str; measure ingredient]
    /\ int quantity_str = Some (quantity ingredient).

(** Every ingredient of every dish satisfies [P]. *)
Definition all_ingredients (P : Ingredient -> Prop) (cook_book : CookBook) : Prop :=
  Forall (fun item => Forall P item.2) cook_book.

(** What the operating system says of a path that does not exist. *)
Definition errno2 (path : str) : exception :=
  FileNotFoundError (u "[Errno 2] No such file or directory: '" ++ path ++ u "'").

(** A file system holding one text file. *)
Definition one_file (path text : str) : str -> result str :=
  fun p => if decide (p = path) then Return text else Raise (errno2 p).

(* ===================================================================== *)
(** * Task 2: [get_shop_list_by_dishes]                                  *)
(* ===================================================================== *)

(** A shopping-list entry: the dict [{'measure': ..., 'quantity': ...}]. *)
Record Entry := mkEntry {
  entry_measure : str;
  entry_quantity : Z
}.

Definition ShopList := dict str Entry.

Definition msg_dish_not_found (dish : str) : str :=
  u "Блюдо '" ++ dish ++ u "' не найдено в книге рецептов.".

(** The body of [for ingredient in cook_book[dish]] (lines 67-73). *)
Definition add_ingredient (person_count : Z) (shop_list : ShopList)
    (ingredient : Ingredient) : ShopList :=
  let name := ingredient_name ingredient in
  let quantity := (quantity ingredient * person_count)%Z in
  let measure := measure ingredient in
  match dict_get name shop_list with
  | Some entry =>
      dict_set name
        (mkEntry (entry_measure entry) (entry_quantity entry + quantity)) shop_list
  | None => dict_set name (mkEntry measure quantity) shop_list
  end.

(** The body of [for dish in dishes] (lines 63-73) on the pair of the
    shopping list and the lines printed so far. *)
Definition add_dish (person_count : Z) (cook_book : CookBook)
    (st : ShopList * list str) (dish : str) : ShopList * list str :=
  let '(shop_list, out) := st in
  match dict_get dish cook_book with
  | None => (shop_list, out ++ [msg_dish_not_found dish])
  | Some ingredients =>
      (fold_left (add_ingredient person_count) ingredients shop_list, out)
  end.

(** [get_shop_list_by_dishes(dishes, person_count, cook_book)]: the returned
    shopping list and the lines printed. *)
Definition get_shop_list_by_dishes (dishes : list str) (person_count : Z)
    (cook_book : CookBook) : ShopList * list str :=
  fold_left (add_dish person_count cook_book) dishes ([], []).

(** [name]'s first occurrence in an ingredient list. *)
Definition first_named (name : str) (ingredients : list Ingredient)
  : option Ingredient :=
  List.find (fun i => bool_decide (ingredient_name i = name)) ingredients.

(** [d.keys()] *)
Definition keys {K V} (d : dict K V) : list K := map fst d.

(** What the invariant of the data model sums: the quantities a dish list
    asks of ingredient [name], each scaled by [person_count].  A dish named
    twice counts twice, a dish missing from the cook book counts nothing. *)
Definition recipe_total (name : str) (person_count : Z)
    (ingredients : list Ingredient) : Z :=
  foldr Z.add 0%Z
    (map (fun i => (quantity i * person_count)%Z)
       (List.filter (fun i => bool_decide (ingredient_name i = name)) ingredients)).

Definition requested_recipes (dishes : list str) (cook_book : CookBook)
  : list (list Ingredient) :=
  omap (fun dish => dict_get dish cook_book) dishes.

Definition requested_total (name : str) (person_count : Z)
    (dishes : list str) (cook_book : CookBook) : Z :=
  foldr Z.add 0%Z
    (map (recipe_total name person_count) (requested_recipes dishes cook_book)).

(** The cook book of the example in the specification. *)
Definition cook_book_AB : CookBook :=
  [(u "A", [mkIngredient (u "salt") 2 (u "g")]);
   (u "B", [mkIngredient (u "salt") 3 (u "g")])].

(** ** The same function over a store of dict objects

    The ingredient dicts of the cook book and the entry dicts of the
    shopping list are mutable objects; the function holds references to
    them.  The store maps a reference to the object it denotes.  The cook
    book dict and its lists are read, never stored into (lines 63 and 66);
    the shopping list is the function's own local dict. *)
Module Store.

(** A value of an ingredient or entry dict: [Union[str, int]]. *)
Inductive value :=
| VInt (n : Z)
| VStr (s : str).

#[global] Instance value_eq_dec : EqDecision value.
Proof. solve_decision. Defined.

Definition object := dict str value.
Definition loc := nat.

Record state := mkState {
  heap : list object;
  stdout : list str
}.

(** Computations over the store that may raise; what was stored before
    an exception stays stored. *)
Definition M (A : Type) := state -> state * result A.

Definition ret {A} (a : A) : M A := fun s => (s, Return a).
Definition raise {A} (e : exception) : M A := fun s => (s, Raise e).
Definition bind {A B} (m : M A) (k : A -> M B) : M B :=
  fun s =>
    match m s with
    | (s', Return a) => k a s'
    | (s', Raise e) => (s', Raise e)
    end.

Notation "x <~ m ;; k" := (bind m (fun x => k))
  (at level 100, m at next level, right associativity).

(** A dict display [{...}] makes a new object. *)
Definition alloc (o : object) : M loc :=
  fun s => (mkState (heap s ++ [o]) (stdout s), Return (length (heap s))).

(** Following a reference.  A reference Python hands out always denotes
    an object; a dangling one is reported as [SystemError]. *)
Definition load (l : loc) : M object :=
  fun s =>
    match heap s !! l with
    | Some o => (s, Return o)
    | None => (s, Raise (OtherException (u "SystemError") (u "dangling reference")))
    end.

(** Updating the object a reference denotes, in place. *)
Definition store (l : loc) (o : object) : M unit :=
  fun s => (mkState (<[l := o]> (heap s)) (stdout s), Return tt).

Definition print (line : str) : M unit :=
  fun s => (mkState (heap s) (stdout s ++ [line]), Return tt).

(** [o[key]] *)
Definition getitem (key : str) (o : object) : M value :=
  match dict_get key o with
  | Some v => ret v
  | None => raise (OtherException (u "KeyError") (u "'" ++ key ++ u "'"))
  end.

(** [v * n] for an [int] [n]: a product of ints, a repeated string. *)
Definition mul (v : value) (n : Z) : value :=
  match v with
  | VInt a => VInt (a * n)
  | VStr s => VStr (concat (replicate (Z.to_nat n) s))
  end.

(** [a + b] *)
Definition add (a b : value) : M value :=
  match a, b with
  | VInt x, VInt y => ret (VInt (x + y))
  | VStr x, VStr y => ret (VStr (x ++ y))
  | _, _ => raise (OtherException (u "TypeError") (u "unsupported operand type(s) for +="))
  end.

Fixpoint for_each {A S} (body : S -> A -> M S) (xs : list A) (acc : S) : M S :=
  match xs with
  | [] => ret acc
  | x :: xs' => acc' <~ body acc x ;; for_each body xs' acc'
  end.

(** Lines 67-73; [shop_list] maps an ingredient name to the reference of
    its entry. *)
Definition add_ingredient (person_count : Z) (shop_list : dict value loc)
    (ingredient : loc) : M (dict value loc) :=
  obj <~ load ingredient ;;
  ingredient_name <~ getitem (u "ingredient_name") obj ;;
  q <~ getitem (u "quantity") obj ;;
  let quantity := mul q person_count in
  measure <~ getitem (u "measure") obj ;;
  match dict_get ingredient_name shop_list with
  | Some l =>
      entry <~ load l ;;
      old <~ getitem (u "quantity") entry ;;
      new <~ add old quantity ;;
      _ <~ store l (dict_set (u "quantity") new entry) ;;
      ret shop_list
  | None =>
      l <~ alloc [(u "measure", measure); (u "quantity", quantity)] ;;
      ret (dict_set ingredient_name l shop_list)
  end.

(** Lines 63-73. *)
Definition add_dish (person_count : Z) (cook_book : dict str (list loc))
    (shop_list : dict value loc) (dish : str) : M (dict value loc) :=
  match dict_get dish cook_book with
  | None => _ <~ print (msg_dish_not_found dish) ;; ret shop_list
  | Some ingredients => for_each (add_ingredient person_count) ingredients shop_list
  end.

Definition get_shop_list_by_dishes (dishes : list str) (person_count : Z)
    (cook_book : dict str (list loc)) : M (dict value loc) :=
  for_each (add_dish person_count cook_book) dishes [].

(** Reading the typed records back out of the store. *)
Definition ingredient_of (o : object) : option Ingredient :=
  match dict_get (u "ingredient_name") o, dict_get (u "quantity") o,
        dict_get (u "measure") o with
  | Some (VStr n), Some (VInt q), Some (VStr m) => Some (mkIngredient n q m)
  | _, _, _ => None
  end.

Definition entry_of (o : object) : option Entry :=
  match dict_get (u "measure") o, dict_get (u "quantity") o with
  | Some (VStr m), Some (VInt q) => Some (mkEntry m q)
  | _, _ => None
  end.

Definition ingredient_at (h : list object) (l : loc) : option Ingredient :=
  h !! l ≫= ingredient_of.

Definition cook_book_at (h : list object) (cook_book : dict str (list loc))
  : option CookBook :=
  mapM (fun '(dish, ls) => pair dish <$> mapM (ingredient_at h) ls) cook_book.

Definition entry_at (h : list object) (item : value * loc) : option (str * Entry) :=
  match item.1 with
  | VStr name => pair name <$> (h !! item.2 ≫= entry_of)
  | VInt _ => None
  end.

Definition shop_list_at (h : list object) (shop_list : dict value loc)
  : option ShopList :=
  mapM (entry_at h) shop_list.

(** No entry of the shopping list refers to an object of [h0]. *)
Definition fresh_for (h0 : list object) (shop_list : dict value loc) : Prop :=
  Forall (fun item => length h0 <= item.2) shop_list.

(** The shopping list [shop_list] reads as [entries] in the store [h], and
    no two of its names share an entry object. *)
Definition represents (h : list object) (shop_list : dict value loc)
    (entries : ShopList) : Prop :=
  Forall2 (fun item e => entry_at h item = Some e) shop_list entries
  /\ NoDup (map snd shop_list).

(** The outcome [r] of a computation keeps the objects of [h0], whether
    it returns or raises, and satisfies [I] when it returns. *)
Definition keeps {A} (h0 : list object) (I : state -> A -> Prop)
    (r : state * result A) : Prop :=
  h0 `prefix_of` heap r.1 /\ forall a, r.2 = Return a -> I r.1 a.

(** The object an ingredient record is stored as. *)
Definition object_of_ingredient (i : Ingredient) : object :=
  [(u "ingredient_name", VStr (ingredient_name i));
   (u "quantity", VInt (quantity i));
   (u "measure", VStr (measure i))].

(** The cook book of the example as objects in a store. *)
Definition store_AB : state :=
  mkState (map object_of_ingredient
             [mkIngredient (u "salt") 2 (u "g"); mkIngredient (u "salt") 3 (u "g")])
          [].

Definition cook_book_refs_AB : dict str (list loc) :=
  [(u "A", [0]); (u "B", [1])].

End Store.

(* ===================================================================== *)
(** * Task 3: [merge_files]                                              *)
(* ===================================================================== *)

(** The operating system as the function meets it.  Each operation either
    raises or succeeds. *)
Record OS := mkOS {
  (** [os.listdir(directory)] *)
  listdir : str -> result (list str);
  (** [os.path.isfile(path)] *)
  isfile : str -> bool;
  (** [with open(path, 'r', encoding='utf-8') as file: file.readlines()] *)
  readlines : str -> result (list str);
  (** [open(path, 'w', encoding='utf-8')] *)
  open_write : str -> result unit;
  (** [out_file.write(data)] on the file at [path] holding [content] *)
  write_fails : str -> str -> str -> option exception;
  (** leaving the [with] block of the output file *)
  close_write : str -> str -> result unit
}.

(** [os.path.join(a, b)] ([posixpath]) *)
Definition path_join (a b : str) : str :=
  if startswith [47%N] b then b
  else
    match rev a with
    | [] => a ++ b
    | c :: _ => if (c =? 47)%N then a ++ b else a ++ [47%N] ++ b
    end.

(** The first loop (lines 86-92) over the names still to visit. *)
Fixpoint collect (os : OS) (directory : str) (names : list str)
    (files_info : dict str (list str)) : result (dict str (list str)) :=
  match names with
  | [] => Return files_info
  | filename :: names' =>
      let file_path := path_join directory filename in
      if isfile os file_path then
        lines <- readlines os file_path ;;
        collect os directory names' (dict_set filename lines files_info)
      else collect os directory names' files_info
  end.

(** [sorted(items, key=key)]: the one stable arrangement in ascending key
    order ([sorted_unique]). *)
Fixpoint insert_by {A} (key : A -> nat) (x : A) (l : list A) : list A :=
  match l with
  | [] => [x]
  | y :: l' => if (key x <=? key y)%nat then x :: l else y :: insert_by key x l'
  end.

Fixpoint sorted {A} (key : A -> nat) (l : list A) : list A :=
  match l with
  | [] => []
  | x :: l' => insert_by key x (sorted key l')
  end.

(** Ascending order of keys. *)
Definition key_le {A} (key : A -> nat) (a b : A) : Prop := key a <= key b.

Definition write (os : OS) (path content data : str) : result str :=
  match write_fails os path content data with
  | Some e => Raise e
  | None => Return (content ++ data)
  end.

(** [out_file.writelines(lines)] *)
Fixpoint writelines (os : OS) (path content : str) (lines : list str) : result str :=
  match lines with
  | [] => Return content
  | line :: lines' =>
      content' <- write os path content line ;;
      writelines os path content' lines'
  end.

(** The body of [for filename, lines in sorted_files] (lines 98-100). *)
Definition write_record (os : OS) (path content : str) (record : str * list str)
  : result str :=
  let '(filename, lines) := record in
  c1 <- write os path content (filename ++ [10%N]) ;;
  c2 <- write os path c1 (str_of_nat (length lines) ++ [10%N]) ;;
  writelines os path c2 lines.

Fixpoint write_records (os : OS) (path content : str)
    (records : list (str * list str)) : result str :=
  match records with
  | [] => Return content
  | record :: records' =>
      content' <- write_record os path content record ;;
      write_records os path content' records'
  end.

Definition msg_dir_not_found (directory : str) : str :=
  u "Директория '" ++ directory ++ u "' не найдена.".

Definition msg_merge_error (e : exception) : str :=
  u "Ошибка при объединении файлов: " ++ exc_str e.

(** The [try] block (lines 85-100); returns what the output file holds. *)
Definition merge_body (os : OS) (directory output_file : str) : result str :=
  names <- listdir os directory ;;
  files_info <- collect os directory names [] ;;
  let sorted_files := sorted (fun x => length x.2) files_info in
  _ <- open_write os output_file ;;
  content <- write_records os output_file [] sorted_files ;;
  _ <- close_write os output_file content ;;
  Return content.

(** [merge_files(directory, output_file)] *)
Definition merge_files (os : OS) (directory output_file : str) : result str :=
  match merge_body os directory output_file with
  | Raise (FileNotFoundError _) => Raise (FileNotFoundError (msg_dir_not_found directory))
  | Raise e => Raise (ValueError (msg_merge_error e))
  | Return content => Return content
  end.

(** The block a file record is written as. *)
Definition block (record : str * list str) : str :=
  record.1 ++ [10%N] ++ str_of_nat (length record.2) ++ [10%N] ++ concat record.2.

(** The directory part of a path: what stands before its last slash. *)
Fixpoint dirname_rev (p : str) : str :=
  match p with
  | [] => []
  | c :: p' => if (c =? 47)%N then p' else dirname_rev p'
  end.

Definition dirname (path : str) : str := rev (dirname_rev (rev path)).

(** A system whose only directory is [directory], holding the regular
    files [files] in enumeration order; files can be created in it and
    written without failure, and nothing else exists. *)
Definition flat_dir (directory : str) (files : dict str (list str)) : OS := {|
  listdir d :=
    if decide (d = directory) then Return (keys files) else Raise (errno2 d);
  isfile p :=
    existsb (fun name => bool_decide (p = path_join directory name)) (keys files);
  readlines p :=
    match List.find (fun item => bool_decide (p = path_join directory item.1)) files with
    | Some item => Return item.2
    | None => Raise (errno2 p)
    end;
  open_write p :=
    if decide (dirname p = directory) then Return tt else Raise (errno2 p);
  write_fails _ _ _ := None;
  close_write _ _ := Return tt
|}.

(** Three files of 5, 1 and 3 lines, in that order of enumeration. *)
Definition three_files : dict str (list str) :=
  [(u "a.txt", [u "a1
"; u "a2
"; u "a3
"; u "a4
"; u "a5
"]);
   (u "b.txt", [u "b1
"]);
   (u "c.txt", [u "c1
"; u "c2
"; u "c3
"])].

(* ===================================================================== *)
(** * Notions used by the further properties                             *)
(* ===================================================================== *)

(** What lines 27-42 make of one ingredient line that they accept. *)
Definition ingredient_of_line (raw : str) : option Ingredient :=
  match split (u " | ") (strip raw) with
  | [name; quantity_str; measure] =>
      match int quantity_str with
      | Some quantity => Some (mkIngredient name quantity measure)
      | None => None
      end
  | _ => None
  end.

(** The next [k] lines of [file]. *)
Definition next_lines (k : nat) (file : str) : list str :=
  map (fun i => nth_line i file) (seq 0 k).

(** The dish was declared in [text] by a name line followed by a count
    line that announces as many ingredients as [ingredients] holds. *)
Definition declared (text : str) (item : str * list Ingredient) : Prop :=
  exists j n,
    strip (nth_line j text) = item.1
    /\ int (strip (nth_line (S j) text)) = Some n
    /\ length item.2 = Z.to_nat n.

(** The quantity the shopping list asks of [name]; nothing when the name
    is not listed. *)
Definition quantity_of (name : str) (shop_list : ShopList) : Z :=
  match dict_get name shop_list with
  | Some entry => entry_quantity entry
  | None => 0%Z
  end.

(** A shopping list for one person brought to [person_count] persons. *)
Definition scale (person_count : Z) (shop_list : ShopList) : ShopList :=
  map (fun item =>
         (item.1, mkEntry (entry_measure item.2)
                    (entry_quantity item.2 * person_count)))
    shop_list.

(** What [merge_files] makes of an exception of its [try] block. *)
Definition merge_error (directory : str) (e : exception) : exception :=
  match e with
  | FileNotFoundError _ => FileNotFoundError (msg_dir_not_found directory)
  | _ => ValueError (msg_merge_error e)
  end.

(** A directory with a file that cannot be read: [flat_dir] where reading
    the file [bad] raises [e]. *)
Definition unreadable (os : OS) (bad : str) (e : exception) : OS := {|
  listdir := listdir os;
  isfile := isfile os;
  readlines p := if decide (p = bad) then Raise e else readlines os p;
  open_write := open_write os;
  write_fails := write_fails os;
  close_write := close_write os
|}.

(** One more dish block of [text] has been stored: [cook_book'] is
    [cook_book] with the dish named on line [j] set to [ingredients], as
    many as the count on line [j + 1] announces. *)
Definition stored (text : str) (cook_book cook_book' : CookBook) : Prop :=
  exists j n ingredients,
    cook_book' = dict_set (strip (nth_line j text)) ingredients cook_book
    /\ strip (nth_line j text) <> []
    /\ int (strip (nth_line (S j) text)) = Some n
    /\ length ingredients = Z.to_nat n.

(** The directory of the three files after an earlier merge into it. *)
Definition files_after_merge : dict str (list str) :=
  three_files ++ [(u "merged_file.txt", [u "earlier output
"])].

(** The names of [names] in the order of their first occurrence, those of
    [seen] left out. *)
Fixpoint first_occurrences (seen names : list str) : list str :=
  match names with
  | [] => []
  | name :: names' =>
      if bool_decide (name ∈ seen) then first_occurrences seen names'
      else name :: first_occurrences (name :: seen) names'
  end.

(** The message of a format error of the parsing loop for [dish]: one of
    the four texts of lines 23, 29, 32 and 37. *)
Definition format_error (dish msg : str) : Prop :=
  msg = msg_bad_count dish
  \/ msg = msg_too_few dish
  \/ (exists ingredient_line, msg = msg_bad_format dish ingredient_line)
  \/ (exists ingredient_name, msg = msg_bad_quantity ingredient_name dish).

(** The dish block that starts on line [j] of [text], when the loop accepts
    it: its name, its ingredients, and the line on which the next block
    starts (the line after the ingredients is passed over). *)
Definition block_at (text : str) (j : nat)
  : option (str * list Ingredient * nat) :=
  match strip (nth_line j text) with
  | [] => None
  | dish_name =>
      match int (strip (nth_line (S j) text)) with
      | None => None
      | Some n =>
          match mapM ingredient_of_line
                  (next_lines (Z.to_nat n) (after_lines (j + 2) text)) with
          | Some ingredients => Some (dish_name, ingredients, j + 2 + S (Z.to_nat n))
          | None => None
          end
      end
  end.

(** The blocks of [text] from line [j] on, up to the blank line or the end
    of the text that ends the parsing. *)
Inductive blocks_from (text : str) : nat -> list (str * list Ingredient) -> Prop :=
| blocks_end j :
    strip (nth_line j text) = [] -> blocks_from text j []
| blocks_next j dish_name ingredients j' blocks :
    block_at text j = Some (dish_name, ingredients, j') ->
    blocks_from text j' blocks ->
    blocks_from text j ((dish_name, ingredients) :: blocks).

(** [cook_book[dish_name] = ingredients] (line 43) for each block in
    turn. *)
Definition store_blocks (blocks : list (str * list Ingredient))
    (cook_book : CookBook) : CookBook :=
  fold_left (fun cb block => dict_set block.1 block.2 cb) blocks cook_book.

(** The last block of [blocks] that carries the name [dish]. *)
Definition last_block (dish : str) (blocks : list (str * list Ingredient))
  : option (str * list Ingredient) :=
  List.find (fun block => bool_decide (block.1 = dish)) (rev blocks).

(** ** The aggregator with a standard output that may refuse a line

    [print] encodes the line for [sys.stdout] and raises when the encoder
    cannot take it: [refuses line] is that exception.  [Store.print] is
    the standard output that takes every line. *)
Module Terminal.

(** [print(line)] *)
Definition print (refuses : str -> option exception) (line : str) : Store.M unit :=
  match refuses line with
  | Some e => Store.raise e
  | None => Store.print line
  end.

(** Lines 63-73. *)
Definition add_dish (refuses : str -> option exception) (person_count : Z)
    (cook_book : dict str (list Store.loc))
    (shop_list : dict Store.value Store.loc) (dish : str)
  : Store.M (dict Store.value Store.loc) :=
  match dict_get dish cook_book with
  | None =>
      Store.bind (print refuses (msg_dish_not_found dish))
        (fun _ => Store.ret shop_list)
  | Some ingredients =>
      Store.for_each (Store.add_ingredient person_count) ingredients shop_list
  end.

Definition get_shop_list_by_dishes (refuses : str -> option exception)
    (dishes : list str) (person_count : Z)
    (cook_book : dict str (list Store.loc))
  : Store.M (dict Store.value Store.loc) :=
  Store.for_each (add_dish refuses person_count cook_book) dishes [].

(** A code point of the surrogate range, which UTF-8 does not encode. *)
Definition is_surrogate (c : char) : bool := ((55296 <=? c) && (c <=? 57343))%N.

(** The place of the first surrogate of [line] and the text from it on. *)
Fixpoint first_surrogate (line : str) : option (nat * str) :=
  match line with
  | [] => None
  | c :: rest =>
      if is_surrogate c then Some (0, line)
      else match first_surrogate rest with
           | Some (start, run) => Some (S start, run)
           | None => None
           end
  end.

(** The number of surrogates [line] starts with. *)
Fixpoint surrogates (line : str) : nat :=
  match line with
  | [] => 0
  | c :: rest => if is_surrogate c then S (surrogates rest) else 0
  end.

(** [%04x] for a code point of the basic plane. *)
Definition hex_digit (d : N) : char := (if d <? 10 then 48 + d else 87 + d)%N.

Definition hex4 (c : char) : str :=
  [hex_digit (c / 4096 mod 16); hex_digit (c / 256 mod 16);
   hex_digit (c / 16 mod 16); hex_digit (c mod 16)]%N.

(** [str(e)] for the [UnicodeEncodeError] of the UTF-8 encoder on the
    surrogates at places [start] to [start + count - 1], the first of them
    being [c]. *)
Definition msg_surrogates (c : char) (start count : nat) : str :=
  if decide (count = 1)
  then u "'utf-8' codec can't encode character '\u" ++ hex4 c
       ++ u "' in position " ++ str_of_nat start
       ++ u ": surrogates not allowed"
  else u "'utf-8' codec can't encode characters in position "
       ++ str_of_nat start ++ u "-" ++ str_of_nat (start + count - 1)
       ++ u ": surrogates not allowed".

(** A standard output in UTF-8 (error handler [strict]): the encoder
    refuses a line that holds a surrogate, and nothing of the line is
    written. *)
Definition utf8_refuses (line : str) : option exception :=
  match first_surrogate line with
  | Some (start, c :: rest) =>
      Some (OtherException (u "UnicodeEncodeError")
              (msg_surrogates c start (S (surrogates rest))))
  | _ => None
  end.

End Terminal.

(* ===================================================================== *)
(** * The builtins on sample arguments                                   *)
(* ===================================================================== *)

Section Builtins.

Example split_samples :
  map (split (u " | "))
    [u "a | 2 | g"; u "a |  | b"; u " |  | "; u "a | "; u ""; u "a |b| c"; u " | | | "]
  = [[u "a"; u "2"; u "g"]; [u "a"; u ""; u "b"]; [u ""; u ""; u ""];
     [u "a"; u ""]; [u ""]; [u "a |b| c"]; [u ""; u "|"; u ""]].
Proof. vm_compute. reflexivity. Qed.

Example int_accepts :
  map int [u "5"; u " 5 "; [160; 53]%N; u "+5"; u "-5"; u "1_0"; u "007";
           u "٥"; u "-٥٠"; u "-0"; [53; 10]%N]
  = map Some [5; 5; 5; 5; -5; 10; 7; 5; -50; 0; 5]%Z.
Proof. vm_compute. reflexivity. Qed.

Example int_rejects :
  map int [u ""; u "+"; u "- 5"; u "--5"; u "_1"; u "1_"; u "1__0"; u "0x10";
           u "1e3"; u "5.0"; u "five"; [28; 53]%N; [53; 0]%N]
  = map (fun _ => None) (seq 0 13).
Proof. vm_compute. reflexivity. Qed.

Example strip_sample : strip (u "  Омлет 	
") = u "Омлет".
Proof. vm_compute. reflexivity. Qed.

Example str_of_nat_samples : map str_of_nat [0; 7; 120] = [u "0"; u "7"; u "120"].
Proof. vm_compute. reflexivity. Qed.

Example path_join_samples :
  [path_join (u "files") (u "a.txt"); path_join (u "files/") (u "a.txt");
   path_join (u "") (u "a.txt"); path_join (u "files") (u "/a.txt")]
  = [u "files/a.txt"; u "files/a.txt"; u "a.txt"; u "/a.txt"].
Proof. vm_compute. reflexivity. Qed.

(** A file of two dishes, and a file cut short. *)
Example read_cook_book_sample :
  read_cook_book (one_file (u "recipes.txt") (u "Омлет
2
Яйцо | 2 | шт
Молоко | 100 | мл

Каша
1
Крупа | 50 | г
")) (u "recipes.txt")
  = Some (Return [(u "Омлет", [mkIngredient (u "Яйцо") 2 (u "шт");
                               mkIngredient (u "Молоко") 100 (u "мл")]);
                  (u "Каша", [mkIngredient (u "Крупа") 50 (u "г")])]).
Proof. vm_compute. reflexivity. Qed.

Example read_cook_book_short_sample :
  read_cook_book (one_file (u "recipes.txt") (u "Омлет
2
Яйцо | 2 | шт
")) (u "recipes.txt")
  = Some (Raise (ValueError
       (u "Ошибка при чтении файла 'recipes.txt': Недостаточно ингредиентов для блюда 'Омлет'"))).
Proof. vm_compute. reflexivity. Qed.

Example read_cook_book_missing_sample :
  read_cook_book (one_file (u "recipes.txt") (u "")) (u "other.txt")
  = Some (Raise (FileNotFoundError (u "Файл 'other.txt' не найден."))).
Proof. vm_compute. reflexivity. Qed.

End Builtins.

(* ===================================================================== *)
(** * Properties of the parser                                           *)
(* ===================================================================== *)

Section Parser.

Implicit Types (file text line raw : str) (cook_book : CookBook).

Lemma readline_app file : file = (readline file).1 ++ (readline file).2.
Proof.
  induction file as [|c file IH]; simpl; [done|].
  destruct (c =? 10)%N; [done|].
  destruct (readline file) as [line rest]; simpl in *. by f_equal.
Qed.

Lemma readline_length file :
  length file = length (readline file).1 + length (readline file).2.
Proof. rewrite (readline_app file) at 1. apply length_app. Qed.

Lemma readline_rest_le file : length (readline file).2 <= length file.
Proof. rewrite (readline_length file). lia. Qed.

Lemma strip_nil : strip [] = [].
Proof. reflexivity. Qed.

(** A line that is not blank was read from text that shrank. *)
Lemma readline_rest_lt file :
  strip (readline file).1 <> [] -> length (readline file).2 < length file.
Proof.
  intros Hne. rewrite (readline_length file).
  destruct (readline file).1; simpl in *; [done|lia].
Qed.

Lemma read_ingredients_rest_le dish_name k ingredients file ingredients' file' :
  read_ingredients dish_name k ingredients file = Return (ingredients', file') ->
  length file' <= length file.
Proof.
  revert ingredients file.
  induction k as [|k IH]; simpl; intros ingredients file H.
  - by inversion H.
  - pose proof (readline_rest_le file) as Hle.
    destruct (readline file) as [raw rest]; simpl in *.
    destruct (strip raw); [done|].
    destruct (split _ _) as [|f1 [|f2 [|f3 [|f4 fs]]]]; try done.
    destruct (int f2); [|done].
    apply IH in H. lia.
Qed.

(** A pass of the loop that goes round again has read something. *)
Lemma read_dish_shrinks cook_book file cook_book' file' :
  read_dish cook_book file = Return (Some (cook_book', file')) ->
  length file' < length file.
Proof.
  unfold read_dish. intros H.
  pose proof (readline_rest_lt file) as Hlt.
  destruct (readline file) as [raw file1]; simpl in *.
  destruct (strip raw) eqn:Hs; [done|]. specialize (Hlt ltac:(done)).
  pose proof (readline_rest_le file1) as Hle1.
  destruct (readline file1) as [raw_count file2]; simpl in *.
  destruct (int _); [|done].
  destruct (read_ingredients _ _ _ _) as [|[ingredients file3]] eqn:Hr; [done|].
  apply read_ingredients_rest_le in Hr.
  pose proof (readline_rest_le file3) as Hle3.
  destruct (readline file3) as [? file4]; simpl in *.
  inversion H; subst. lia.
Qed.

(** The loop returns with the fuel [read_cook_book] gives it. *)
Lemma read_loop_total fuel cook_book file :
  length file < fuel -> is_Some (read_loop fuel cook_book file).
Proof.
  revert cook_book file.
  induction fuel as [|fuel IH]; intros cook_book file Hlt; [lia|]. simpl.
  destruct (read_dish cook_book file) as [e|[[cook_book' file']|]] eqn:Hd; [done| |done].
  apply IH. apply read_dish_shrinks in Hd. lia.
Qed.

Lemma read_loop_more_fuel fuel fuel' cook_book file r :
  read_loop fuel cook_book file = Some r -> fuel <= fuel' ->
  read_loop fuel' cook_book file = Some r.
Proof.
  revert fuel' cook_book file.
  induction fuel as [|fuel IH]; intros fuel' cook_book file H Hle; [done|].
  destruct fuel' as [|fuel']; [lia|]. simpl in *.
  destruct (read_dish cook_book file) as [e|[[cook_book' file']|]]; try done.
  apply IH; [done|lia].
Qed.

Lemma read_loop_fuel fuel cook_book file :
  length file < fuel ->
  read_loop fuel cook_book file = read_loop (S (length file)) cook_book file.
Proof.
  intros Hlt.
  destruct (read_loop_total (S (length file)) cook_book file) as [r Hr]; [lia|].
  rewrite Hr. eapply read_loop_more_fuel; [done|lia].
Qed.

Lemma read_loop_step cook_book file cook_book' file' :
  read_dish cook_book file = Return (Some (cook_book', file')) ->
  read_loop (S (length file)) cook_book file
  = read_loop (S (length file')) cook_book' file'.
Proof.
  intros Hd. simpl. rewrite Hd.
  apply read_loop_fuel. by eapply read_dish_shrinks.
Qed.

Lemma reaches_read_loop text cook_book file :
  reaches text cook_book file ->
  read_loop (S (length text)) [] text
  = read_loop (S (length file)) cook_book file.
Proof.
  induction 1 as [|cook_book file cook_book' file' _ IH Hd]; [done|].
  rewrite IH. by apply read_loop_step.
Qed.

Lemma read_cook_book_total open_read file_path :
  is_Some (read_cook_book open_read file_path).
Proof.
  unfold read_cook_book.
  destruct (open_read file_path) as [e|text].
  - destruct e; done.
  - destruct (read_loop_total (S (length text)) [] text) as [r ->]; [lia|].
    destruct r as [[]|]; done.
Qed.

Lemma contains_app_l needle pre hay : contains needle hay -> contains needle (pre ++ hay).
Proof.
  intros (a & b & ->). exists (pre ++ a), b. by rewrite <- !app_assoc.
Qed.

Lemma contains_app_r needle hay post : contains needle hay -> contains needle (hay ++ post).
Proof.
  intros (a & b & ->). exists a, (b ++ post). by rewrite <- !app_assoc.
Qed.

Lemma contains_refl needle : contains needle needle.
Proof. exists [], []. by rewrite app_nil_r. Qed.

Lemma msg_too_few_names dish_name : contains (quoted dish_name) (msg_too_few dish_name).
Proof.
  unfold msg_too_few, quoted.
  eexists (removelast (u "Недостаточно ингредиентов для блюда '")), [].
  rewrite app_nil_r. reflexivity.
Qed.

Lemma msg_bad_count_names dish_name : contains (quoted dish_name) (msg_bad_count dish_name).
Proof.
  eexists (removelast (u "Некорректное количество ингредиентов для блюда '")), [].
  rewrite app_nil_r. reflexivity.
Qed.

Lemma msg_bad_format_names dish_name line :
  contains (quoted dish_name) (msg_bad_format dish_name line).
Proof.
  eexists (removelast (u "Некорректный формат ингредиента для блюда '")), (u ": " ++ line).
  unfold msg_bad_format, quoted. rewrite <- !app_assoc. reflexivity.
Qed.

Lemma msg_bad_quantity_names ingredient_name dish_name :
  contains (quoted dish_name) (msg_bad_quantity ingredient_name dish_name)
  /\ contains (quoted ingredient_name) (msg_bad_quantity ingredient_name dish_name).
Proof.
  split.
  - eexists (removelast (u "Некорректное количество для ингредиента '")
             ++ quoted ingredient_name ++ u " в блюде "), [].
    unfold msg_bad_quantity, quoted. rewrite app_nil_r, <- !app_assoc. reflexivity.
  - eexists (removelast (u "Некорректное количество для ингредиента '")),
            (u " в блюде '" ++ dish_name ++ u "'").
    unfold msg_bad_quantity, quoted. rewrite <- !app_assoc. reflexivity.
Qed.

Lemma msg_read_error_names needle file_path e :
  contains needle (exc_str e) -> contains needle (msg_read_error file_path e).
Proof.
  intros H. unfold msg_read_error. by do 3 apply contains_app_l.
Qed.

(** The ingredient loop stops at the first malformed line among the [k] it
    has to read, with a [ValueError] that names the dish. *)
Lemma read_ingredients_malformed dish_name k ingredients file i :
  i < k -> malformed_ingredient (after_lines i file) ->
  exists msg,
    read_ingredients dish_name k ingredients file = Raise (ValueError msg)
    /\ contains (quoted dish_name) msg.
Proof.
  revert ingredients file i.
  induction k as [|k IH]; intros ingredients file i Hi Hbad; [lia|].
  simpl. destruct (readline file) as [raw file'] eqn:Hrl.
  destruct (strip raw) as [|c0 line0] eqn:Hs.
  { eexists; split; [done|]. apply msg_too_few_names. }
  destruct (split (u " | ") (c0 :: line0)) as [|f1 [|f2 [|f3 [|f4 fs]]]] eqn:Hsp;
    try (eexists; split; [done|]; apply msg_bad_format_names).
  destruct (int f2) eqn:Hint.
  2:{ eexists; split; [done|]. apply msg_bad_quantity_names. }
  destruct i as [|i].
  - exfalso. unfold malformed_ingredient in Hbad. simpl in Hbad.
    rewrite Hrl in Hbad; simpl in Hbad. rewrite Hs, Hsp in Hbad.
    destruct Hbad as [->|[Hlen|(n & q & m & Heq & Hq)]].
    + simpl in Hrl. inversion Hrl; subst. done.
    + simpl in Hlen. done.
    + inversion Heq; subst. congruence.
  - apply (IH _ file' i); [lia|]. simpl in Hbad. by rewrite Hrl in Hbad.
Qed.

(** A malformed block makes the pass raise [ValueError] naming the dish. *)
Lemma read_dish_malformed cook_book file :
  malformed_block file ->
  exists msg,
    read_dish cook_book file = Raise (ValueError msg)
    /\ contains (quoted (strip (readline file).1)) msg.
Proof.
  intros [Hname Hblock]. unfold read_dish.
  destruct (readline file) as [raw file1]; simpl in *.
  destruct (strip raw) as [|c0 name0] eqn:Hs; [done|].
  destruct (readline file1) as [raw_count file2]; simpl in *.
  destruct (int (strip raw_count)) as [n|].
  - destruct Hblock as (i & Hi & Hbad).
    destruct (read_ingredients_malformed (c0 :: name0) _ [] file2 i Hi Hbad)
      as (msg & -> & Hc).
    by exists msg.
  - eexists; split; [done|]. apply msg_bad_count_names.
Qed.

(** What [read_cook_book] makes of an exception of the loop. *)
Lemma read_cook_book_raises open_read file_path text cook_book file msg :
  open_read file_path = Return text ->
  reaches text cook_book file ->
  read_dish cook_book file = Raise (ValueError msg) ->
  read_cook_book open_read file_path
  = Some (Raise (ValueError (msg_read_error file_path (ValueError msg)))).
Proof.
  intros Hopen Hreach Hd. unfold read_cook_book. rewrite Hopen.
  rewrite (reaches_read_loop _ _ _ Hreach). simpl. by rewrite Hd.
Qed.

End Parser.
Section ParserClaims.

Implicit Types (file text line raw : str) (cook_book : CookBook).

(** C3.  Whenever the parser stands at a dish block whose count line reads
    [n] and one of the [n] ingredient lines that follow is malformed (the
    stream has ended, the line does not split into exactly three fields on
    [" | "], or its quantity field is not an integer), [read_cook_book]
    raises [ValueError] with a message that quotes the name of that dish,
    and returns no cook book. *)
Theorem read_cook_book_malformed_ingredient
    open_read file_path text cook_book file n i :
  open_read file_path = Return text ->
  reaches text cook_book file ->
  strip (readline file).1 <> [] ->
  int (strip (readline (readline file).2).1) = Some n ->
  i < Z.to_nat n ->
  malformed_ingredient (after_lines i (readline (readline file).2).2) ->
  exists msg,
    read_cook_book open_read file_path = Some (Raise (ValueError msg))
    /\ contains (quoted (strip (readline file).1)) msg
    /\ forall cook_book',
         read_cook_book open_read file_path <> Some (Return cook_book').
Proof.
  intros Hopen Hreach Hname Hcount Hi Hbad.
  destruct (read_dish_malformed cook_book file) as (msg & Hd & Hc).
  { split; [done|]. rewrite Hcount. eauto. }
  exists (msg_read_error file_path (ValueError msg)).
  rewrite (read_cook_book_raises _ _ _ _ _ _ Hopen Hreach Hd).
  split; [done|]. split; [|done].
  by apply msg_read_error_names.
Qed.

(** An ingredient line of two fields in the only dish of the file. *)
Lemma read_cook_book_malformed_ingredient_witness :
  exists msg,
    read_cook_book (one_file (u "recipes.txt") (u "Омлет
1
Яйцо | 2
")) (u "recipes.txt") = Some (Raise (ValueError msg))
    /\ contains (quoted (u "Омлет")) msg.
Proof.
  destruct (read_cook_book_malformed_ingredient
              (one_file (u "recipes.txt") (u "Омлет
1
Яйцо | 2
")) (u "recipes.txt") _ [] _ 1%Z 0 eq_refl (reaches_start _))
    as (msg & H1 & H2 & _).
  - vm_compute. discriminate.
  - vm_compute. reflexivity.
  - vm_compute. lia.
  - right; left. vm_compute. discriminate.
  - exists msg. split; [exact H1|exact H2].
Defined.

(** C6.  Whenever the parser stands at a malformed dish block, whatever
    dishes [cook_book] it has stored from the blocks before,
    [read_cook_book] raises [ValueError] and returns no cook book: the
    dishes parsed before the error are not handed back. *)
Theorem read_cook_book_no_partial_catalog open_read file_path text cook_book file :
  open_read file_path = Return text ->
  reaches text cook_book file ->
  malformed_block file ->
  (exists msg, read_cook_book open_read file_path = Some (Raise (ValueError msg)))
  /\ forall cook_book',
       read_cook_book open_read file_path <> Some (Return cook_book').
Proof.
  intros Hopen Hreach Hbad.
  destruct (read_dish_malformed cook_book file Hbad) as (msg & Hd & _).
  rewrite (read_cook_book_raises _ _ _ _ _ _ Hopen Hreach Hd).
  split; [by eexists|done].
Qed.

(** One dish parsed, then a block whose count line is not an integer. *)
Lemma read_cook_book_no_partial_catalog_witness :
  let text := u "Омлет
1
Яйцо | 2 | шт

Каша
много
" in
  reaches text [(u "Омлет", [mkIngredient (u "Яйцо") 2 (u "шт")])] (u "Каша
много
")
  /\ (exists msg,
        read_cook_book (one_file (u "recipes.txt") text) (u "recipes.txt")
        = Some (Raise (ValueError msg)))
  /\ forall cook_book',
       read_cook_book (one_file (u "recipes.txt") text) (u "recipes.txt")
       <> Some (Return cook_book').
Proof.
  intros text.
  assert (Hreach : reaches text [(u "Омлет", [mkIngredient (u "Яйцо") 2 (u "шт")])] (u "Каша
много
")).
  { eapply reaches_next; [apply reaches_start|]. vm_compute. reflexivity. }
  split; [exact Hreach|].
  apply (read_cook_book_no_partial_catalog
           (one_file (u "recipes.txt") text) (u "recipes.txt") text _ _ eq_refl Hreach).
  split; [vm_compute; discriminate|]. vm_compute. exact I.
Defined.

End ParserClaims.
Section Quantities.

Implicit Types (file text line raw : str) (cook_book : CookBook).

Lemma skip_spaces_In c s : In c (skip_spaces s) -> In c s.
Proof.
  induction s as [|x s IH]; simpl; [done|].
  destruct (Py_ISSPACE x); [auto|done].
Qed.

Lemma to_ascii_minus c : to_ascii c = 45%N -> c = 45%N.
Proof.
  unfold to_ascii.
  destruct (c <? 128)%N; [done|].
  destruct (isspace c); [done|].
  destruct (Py_UNICODE_TODECIMAL c); [lia|done].
Qed.

(** [int] gives a negative number only for a literal with a minus sign. *)
Lemma int_negative_sign s z : int s = Some z -> (z < 0)%Z -> In 45%N s.
Proof.
  unfold int. intros Hint Hneg.
  destruct (skip_spaces (map to_ascii s)) as [|c r] eqn:Ha.
  { repeat case_match; simplify_eq; lia. }
  destruct (c =? 43)%N eqn:E43; [repeat case_match; simplify_eq; lia|].
  destruct (c =? 45)%N eqn:E45; [|repeat case_match; simplify_eq; lia].
  apply N.eqb_eq in E45; subst c.
  assert (Hin : In 45%N (map to_ascii s)).
  { apply skip_spaces_In. rewrite Ha. by left. }
  apply in_map_iff in Hin as (x & Hx & Hin).
  apply to_ascii_minus in Hx. by subst.
Qed.

Lemma after_lines_S i file :
  after_lines (S i) file = (readline (after_lines i file)).2.
Proof.
  revert file. induction i as [|i IH]; intros file; [done|].
  change (after_lines (S (S i)) file) with (after_lines (S i) (readline file).2).
  by rewrite IH.
Qed.

Lemma all_ingredients_set P dish ingredients cook_book :
  Forall P ingredients -> all_ingredients P cook_book ->
  all_ingredients P (dict_set dish ingredients cook_book).
Proof.
  intros Hi. induction 1 as [|[k v] cook_book Hv H IH]; simpl.
  - by repeat constructor.
  - destruct (decide (dish = k)); constructor; done.
Qed.

Lemma read_ingredients_read_from text dish_name k ingredients j ingredients' file' :
  Forall (fun i => exists q, read_from text q i) ingredients ->
  read_ingredients dish_name k ingredients (after_lines j text)
  = Return (ingredients', file') ->
  Forall (fun i => exists q, read_from text q i) ingredients'
  /\ exists j', file' = after_lines j' text.
Proof.
  revert ingredients j.
  induction k as [|k IH]; intros ingredients j Hall H; simpl in H.
  - inversion H; subst. eauto.
  - destruct (readline (after_lines j text)) as [raw rest] eqn:Hrl.
    destruct (strip raw) as [|c0 l0] eqn:Hs; [done|].
    destruct (split _ (c0 :: l0)) as [|f1 [|f2 [|f3 [|f4 fs]]]] eqn:Hsp; try done.
    destruct (int f2) as [q|] eqn:Hint; [|done].
    assert (Hrest : rest = after_lines (S j) text).
    { by rewrite after_lines_S, Hrl. }
    rewrite Hrest in H. apply IH in H; [done|].
    apply Forall_app; split; [done|]. constructor; [|done].
    exists f2, j. unfold nth_line. rewrite Hrl. simpl. by rewrite Hs.
Qed.

Lemma read_dish_read_from text cook_book j cook_book' file' :
  all_ingredients (fun i => exists q, read_from text q i) cook_book ->
  read_dish cook_book (after_lines j text) = Return (Some (cook_book', file')) ->
  all_ingredients (fun i => exists q, read_from text q i) cook_book'
  /\ exists j', file' = after_lines j' text.
Proof.
  unfold read_dish. intros Hall H.
  destruct (readline (after_lines j text)) as [raw file1] eqn:Hrl.
  destruct (strip raw) as [|c0 l0]; [done|].
  assert (H1 : file1 = after_lines (S j) text) by by rewrite after_lines_S, Hrl.
  destruct (readline file1) as [raw_count file2] eqn:Hrl1.
  assert (H2 : file2 = after_lines (S (S j)) text).
  { by rewrite after_lines_S, <- H1, Hrl1. }
  destruct (int (strip raw_count)); [|done].
  rewrite H2 in H.
  destruct (read_ingredients _ _ _ _) as [|[ingredients file3]] eqn:Hr; [done|].
  apply read_ingredients_read_from in Hr as [Hing [j3 ->]]; [|done].
  destruct (readline (after_lines j3 text)) as [sep file4] eqn:Hrl3.
  inversion H; subst. split.
  - by apply all_ingredients_set.
  - exists (S j3). by rewrite after_lines_S, Hrl3.
Qed.

Lemma read_loop_read_from text fuel cook_book j cook_book' :
  all_ingredients (fun i => exists q, read_from text q i) cook_book ->
  read_loop fuel cook_book (after_lines j text) = Some (Return cook_book') ->
  all_ingredients (fun i => exists q, read_from text q i) cook_book'.
Proof.
  revert cook_book j.
  induction fuel as [|fuel IH]; intros cook_book j Hall H; [done|]. simpl in H.
  destruct (read_dish cook_book (after_lines j text))
    as [e|[[cook_book1 file1]|]] eqn:Hd; [done| |by simplify_eq].
  apply read_dish_read_from in Hd as [Hall1 [j1 ->]]; [|done].
  by eapply IH.
Qed.

(** C5, as the code has it.  Every ingredient of a cook book returned by
    [read_cook_book] has as its quantity the integer [int] reads from the
    quantity field of its line in the file; the quantity is negative only
    when that field carries a minus sign, and no check turns it away. *)
Theorem read_cook_book_quantities open_read file_path cook_book dish ingredients ingredient :
  read_cook_book open_read file_path = Some (Return cook_book) ->
  In (dish, ingredients) cook_book ->
  In ingredient ingredients ->
  exists text quantity_str,
    open_read file_path = Return text
    /\ read_from text quantity_str ingredient
    /\ ((quantity ingredient < 0)%Z -> In 45%N quantity_str).
Proof.
  unfold read_cook_book. intros H Hd Hi.
  destruct (open_read file_path) as [e|text]; [by destruct e|].
  destruct (read_loop _ _ _) as [[[]|cook_book']|] eqn:Hl; try done.
  simplify_eq.
  apply (read_loop_read_from text _ [] 0) in Hl; [|constructor].
  unfold all_ingredients in Hl. rewrite Forall_forall in Hl.
  apply list_elem_of_In, Hl in Hd. simpl in Hd. rewrite Forall_forall in Hd.
  apply list_elem_of_In, Hd in Hi as [q Hq].
  exists text, q. split; [done|]. split; [done|].
  destruct Hq as (j & _ & Hint). by apply int_negative_sign.
Qed.

Lemma read_cook_book_quantities_witness :
  exists text quantity_str,
    one_file (u "recipes.txt") (u "Каша
1
Крупа | 50 | г
") (u "recipes.txt") = Return text
    /\ read_from text quantity_str (mkIngredient (u "Крупа") 50 (u "г"))
    /\ ((50 < 0)%Z -> In 45%N quantity_str).
Proof.
  apply (read_cook_book_quantities
           (one_file (u "recipes.txt") (u "Каша
1
Крупа | 50 | г
")) (u "recipes.txt")
           [(u "Каша", [mkIngredient (u "Крупа") 50 (u "г")])]
           (u "Каша") [mkIngredient (u "Крупа") 50 (u "г")]
           (mkIngredient (u "Крупа") 50 (u "г"))).
  - vm_compute. reflexivity.
  - left. reflexivity.
  - left. reflexivity.
Defined.

(** C5 as stated fails: a quantity field [-5] is read and returned. *)
Lemma read_cook_book_negative_quantity :
  read_cook_book (one_file (u "recipes.txt") (u "Каша
1
Крупа | -5 | г
")) (u "recipes.txt")
  = Some (Return [(u "Каша", [mkIngredient (u "Крупа") (-5) (u "г")])])
  /\ (quantity (mkIngredient (u "Крупа") (-5) (u "г")) < 0)%Z.
Proof. split; [vm_compute; reflexivity|simpl; lia]. Qed.

End Quantities.
(* ===================================================================== *)
(** * Properties of the aggregator                                       *)
(* ===================================================================== *)

Section Dict.

Context {K V : Type} `{EqDecision K}.
Implicit Types (d : dict K V) (k : K) (v : V).

Lemma dict_get_set k k' v d :
  dict_get k (dict_set k' v d) = if decide (k = k') then Some v else dict_get k d.
Proof.
  induction d as [|[k0 v0] d IH]; simpl.
  - by destruct (decide (k = k')).
  - destruct (decide (k' = k0)) as [->|Hne]; simpl.
    + by destruct (decide (k = k0)).
    + destruct (decide (k = k0)) as [->|]; [|done].
      by destruct (decide (k0 = k')) as [->|].
Qed.

Lemma dict_get_Some_In k v d : dict_get k d = Some v -> In (k, v) d.
Proof.
  induction d as [|[k0 v0] d IH]; simpl; [done|].
  destruct (decide (k = k0)) as [->|]; intros H; [left; congruence|right; auto].
Qed.

Lemma dict_get_keys k d : In k (keys d) <-> is_Some (dict_get k d).
Proof.
  induction d as [|[k0 v0] d IH]; simpl.
  - split; [done|]. by intros [? ?].
  - destruct (decide (k = k0)) as [->|Hne].
    + split; [by eexists|by left].
    + rewrite <- IH. split; [|by right]. intros [?|?]; [congruence|done].
Qed.

Lemma dict_get_In k v d : NoDup (keys d) -> In (k, v) d -> dict_get k d = Some v.
Proof.
  induction d as [|[k0 v0] d IH]; simpl; [done|].
  intros Hnd [Heq|Hin]; apply NoDup_cons in Hnd as [Hk0 Hnd].
  - simplify_eq. by destruct (decide (k = k)).
  - destruct (decide (k = k0)) as [->|]; [|auto].
    exfalso. apply Hk0. apply list_elem_of_In. apply (in_map fst) in Hin. exact Hin.
Qed.

Lemma keys_dict_set k v d :
  keys (dict_set k v d) = if dict_in k d then keys d else keys d ++ [k].
Proof.
  unfold dict_in.
  induction d as [|[k0 v0] d IH]; simpl; [done|].
  destruct (decide (k = k0)) as [->|]; simpl; [done|].
  rewrite IH. by destruct (dict_get k d).
Qed.

Lemma NoDup_keys_set k v d : NoDup (keys d) -> NoDup (keys (dict_set k v d)).
Proof.
  intros Hnd. rewrite keys_dict_set. unfold dict_in.
  destruct (dict_get k d) eqn:Hg; [done|].
  apply NoDup_app. split; [done|]. split; [|apply NoDup_singleton].
  intros x Hx ->%list_elem_of_singleton.
  apply list_elem_of_In, dict_get_keys in Hx as [? ?]. congruence.
Qed.

(** A new key goes last. *)
Lemma dict_set_new k v d : dict_get k d = None -> dict_set k v d = d ++ [(k, v)].
Proof.
  induction d as [|[k0 v0] d IH]; simpl; [done|].
  destruct (decide (k = k0)); [done|]. intros H. by rewrite IH.
Qed.

End Dict.

Section Aggregator.

Implicit Types (shop_list : ShopList) (cook_book : CookBook) (name dish : str).

Lemma recipe_total_cons name person_count i ingredients :
  recipe_total name person_count (i :: ingredients)
  = ((if bool_decide (ingredient_name i = name)
      then quantity i * person_count else 0)
     + recipe_total name person_count ingredients)%Z.
Proof.
  unfold recipe_total. simpl. by destruct (bool_decide _).
Qed.

Lemma recipe_total_app name person_count l1 l2 :
  recipe_total name person_count (l1 ++ l2)
  = (recipe_total name person_count l1 + recipe_total name person_count l2)%Z.
Proof.
  induction l1 as [|i l1 IH]; [done|].
  rewrite <- app_comm_cons, !recipe_total_cons, IH. lia.
Qed.

Lemma recipe_total_concat name person_count recipes :
  recipe_total name person_count (concat recipes)
  = foldr Z.add 0%Z (map (recipe_total name person_count) recipes).
Proof.
  induction recipes as [|r recipes IH]; [done|].
  simpl. by rewrite recipe_total_app, IH.
Qed.

(** One pass of the inner loop, seen from the entry of [name]. *)
Lemma dict_get_add_ingredient name person_count shop_list i :
  dict_get name (add_ingredient person_count shop_list i)
  = if bool_decide (ingredient_name i = name)
    then Some (match dict_get name shop_list with
               | Some e => mkEntry (entry_measure e)
                             (entry_quantity e + quantity i * person_count)
               | None => mkEntry (measure i) (quantity i * person_count)
               end)
    else dict_get name shop_list.
Proof.
  unfold add_ingredient.
  destruct (dict_get (ingredient_name i) shop_list) as [e|] eqn:Hg;
    rewrite dict_get_set;
    destruct (decide (name = ingredient_name i)) as [->|Hne].
  - by rewrite bool_decide_eq_true_2, Hg.
  - by rewrite bool_decide_eq_false_2.
  - by rewrite bool_decide_eq_true_2, Hg.
  - by rewrite bool_decide_eq_false_2.
Qed.

(** The inner loop, seen from the entry of [name]: an entry there already
    keeps its measure and gains the recipe's total; otherwise the first
    occurrence of [name] sets the measure. *)
Lemma dict_get_add_ingredients name person_count ingredients shop_list :
  dict_get name (fold_left (add_ingredient person_count) ingredients shop_list)
  = match dict_get name shop_list with
    | Some e =>
        Some (mkEntry (entry_measure e)
                (entry_quantity e + recipe_total name person_count ingredients))
    | None =>
        match first_named name ingredients with
        | Some first =>
            Some (mkEntry (measure first)
                    (recipe_total name person_count ingredients))
        | None => None
        end
    end.
Proof.
  revert shop_list.
  induction ingredients as [|i ingredients IH]; intros shop_list.
  - simpl. destruct (dict_get name shop_list) as [[m q]|]; [|done].
    unfold recipe_total; simpl. by rewrite Z.add_0_r.
  - simpl. rewrite IH, dict_get_add_ingredient, recipe_total_cons.
    destruct (bool_decide (ingredient_name i = name)); [|done].
    destruct (dict_get name shop_list) as [e|]; simpl; do 2 f_equal; lia.
Qed.

Lemma NoDup_keys_add_ingredients person_count ingredients shop_list :
  NoDup (keys shop_list) ->
  NoDup (keys (fold_left (add_ingredient person_count) ingredients shop_list)).
Proof.
  revert shop_list.
  induction ingredients as [|i ingredients IH]; intros shop_list Hnd; [done|].
  simpl. apply IH. unfold add_ingredient.
  destruct (dict_get _ shop_list); by apply NoDup_keys_set.
Qed.

(** The outer loop handles the requested recipes as one run of
    ingredients, and prints one line for each missing dish. *)
Lemma fold_add_dish person_count cook_book dishes shop_list out :
  fold_left (add_dish person_count cook_book) dishes (shop_list, out)
  = (fold_left (add_ingredient person_count)
       (concat (requested_recipes dishes cook_book)) shop_list,
     out ++ map msg_dish_not_found
              (List.filter (fun d => negb (dict_in d cook_book)) dishes)).
Proof.
  revert shop_list out.
  induction dishes as [|dish dishes IH]; intros shop_list out; simpl.
  - by rewrite app_nil_r.
  - unfold requested_recipes, dict_in in *. simpl.
    destruct (dict_get dish cook_book) as [ingredients|]; simpl.
    + by rewrite IH, fold_left_app.
    + by rewrite IH, <- app_assoc.
Qed.

Lemma get_shop_list_by_dishes_flat dishes person_count cook_book :
  get_shop_list_by_dishes dishes person_count cook_book
  = (fold_left (add_ingredient person_count)
       (concat (requested_recipes dishes cook_book)) [],
     map msg_dish_not_found
       (List.filter (fun d => negb (dict_in d cook_book)) dishes)).
Proof. unfold get_shop_list_by_dishes. by rewrite fold_add_dish. Qed.

Lemma first_named_Some name ingredients :
  is_Some (first_named name ingredients)
  <-> exists i, In i ingredients /\ ingredient_name i = name.
Proof.
  unfold first_named. split.
  - intros [i Hi]. apply find_some in Hi as [Hin Hb].
    exists i. split; [done|]. by apply bool_decide_eq_true in Hb.
  - intros (i & Hin & Hn).
    destruct (List.find _ ingredients) eqn:Hf; [by eexists|].
    apply (find_none _ _ Hf) in Hin. apply bool_decide_eq_false in Hin. done.
Qed.

(** C1.  In the shopping list returned for any dish list, person count and
    cook book, every ingredient name has one entry, the names are those of
    the ingredients of the requested dishes found in the cook book, and
    the quantity of a name is the sum over those dishes of the recipe's
    quantity for that name times [person_count]. *)
Theorem shop_list_quantities dishes person_count cook_book :
  let shop_list := (get_shop_list_by_dishes dishes person_count cook_book).1 in
  NoDup (keys shop_list)
  /\ (forall name entry,
        In (name, entry) shop_list ->
        entry_quantity entry = requested_total name person_count dishes cook_book)
  /\ (forall name,
        In name (keys shop_list)
        <-> exists ingredients i,
              In ingredients (requested_recipes dishes cook_book)
              /\ In i ingredients /\ ingredient_name i = name).
Proof.
  rewrite get_shop_list_by_dishes_flat. simpl.
  assert (Hnd : NoDup (keys (fold_left (add_ingredient person_count)
                               (concat (requested_recipes dishes cook_book)) []))).
  { apply NoDup_keys_add_ingredients. constructor. }
  split; [done|]. split.
  - intros name entry Hin. apply dict_get_In in Hin; [|done].
    rewrite dict_get_add_ingredients in Hin. simpl in Hin.
    unfold requested_total. rewrite <- recipe_total_concat.
    destruct (first_named _ _); by simplify_eq.
  - intros name. rewrite dict_get_keys, dict_get_add_ingredients. simpl.
    assert (Hconcat : (exists i, In i (concat (requested_recipes dishes cook_book))
                                 /\ ingredient_name i = name)
                      <-> exists ingredients i,
                            In ingredients (requested_recipes dishes cook_book)
                            /\ In i ingredients /\ ingredient_name i = name).
    { split.
      - intros (i & Hi & Hn). apply in_concat in Hi as (l & Hl & Hi). eauto.
      - intros (l & i & Hl & Hi & Hn). exists i. split; [|done].
        apply in_concat. eauto. }
    rewrite <- Hconcat, <- first_named_Some.
    destruct (first_named _ _); split; intros [? ?]; by eauto.
Qed.

(** C2.  The example of the specification: dishes A and B for two persons
    give the one entry salt, 10, g. *)
Theorem shop_list_example :
  (get_shop_list_by_dishes [u "A"; u "B"] 2 cook_book_AB).1
  = [(u "salt", mkEntry (u "g") 10)].
Proof. vm_compute. reflexivity. Qed.

Lemma filter_key_absent name shop_list :
  ~ In name (keys shop_list) ->
  List.filter (fun item => bool_decide (item.1 = name)) shop_list = [].
Proof.
  induction shop_list as [|[k v] shop_list IH]; simpl; [done|].
  intros Hn. rewrite bool_decide_eq_false_2 by (intros ->; apply Hn; by left).
  apply IH. intros Hin. apply Hn. by right.
Qed.

Lemma filter_key_unique name entry shop_list :
  NoDup (keys shop_list) -> dict_get name shop_list = Some entry ->
  List.filter (fun item => bool_decide (item.1 = name)) shop_list = [(name, entry)].
Proof.
  induction shop_list as [|[k v] shop_list IH]; simpl; [done|].
  intros Hnd Hg.
  pose proof (NoDup_cons_1_1 _ _ Hnd) as Hk.
  pose proof (NoDup_cons_1_2 _ _ Hnd) as Hnd'.
  destruct (decide (name = k)) as [->|Hne].
  - rewrite bool_decide_eq_true_2 by done. simplify_eq. f_equal.
    apply filter_key_absent. by rewrite <- list_elem_of_In.
  - rewrite bool_decide_eq_false_2 by done. by apply IH.
Qed.

(** C10.  Let [all] be the ingredients of the requested dishes found in the
    cook book, in the order the loops visit them.  A name that occurs in
    [all], once or several times, within one dish or in several, has
    exactly one entry in the shopping list: its measure is that of the
    first occurrence, its quantity the sum of all occurrences times
    [person_count].  For a single dish [all] is the ingredient list of that
    dish, so a name repeated in it is merged as across dishes. *)
Theorem repeated_ingredient_merged dishes person_count cook_book name first :
  let all := concat (requested_recipes dishes cook_book) in
  let shop_list := (get_shop_list_by_dishes dishes person_count cook_book).1 in
  first_named name all = Some first ->
  dict_get name shop_list
  = Some (mkEntry (measure first) (recipe_total name person_count all))
  /\ List.filter (fun item => bool_decide (item.1 = name)) shop_list
     = [(name, mkEntry (measure first) (recipe_total name person_count all))].
Proof.
  intros all shop_list Hfirst.
  assert (Hg : dict_get name shop_list
               = Some (mkEntry (measure first) (recipe_total name person_count all))).
  { unfold shop_list. rewrite get_shop_list_by_dishes_flat. simpl.
    rewrite dict_get_add_ingredients. simpl. fold all. by rewrite Hfirst. }
  split; [done|].
  apply filter_key_unique; [|done].
  unfold shop_list. rewrite get_shop_list_by_dishes_flat. simpl.
  apply NoDup_keys_add_ingredients. constructor.
Qed.

(** One dish that lists salt twice, in grams and then in spoons. *)
Lemma repeated_ingredient_merged_witness :
  let cook_book := [(u "A", [mkIngredient (u "salt") 2 (u "g");
                             mkIngredient (u "oil") 1 (u "l");
                             mkIngredient (u "salt") 3 (u "spoon")])] in
  let shop_list := (get_shop_list_by_dishes [u "A"] 2 cook_book).1 in
  dict_get (u "salt") shop_list = Some (mkEntry (u "g") 10)
  /\ List.filter (fun item => bool_decide (item.1 = u "salt")) shop_list
     = [(u "salt", mkEntry (u "g") 10)].
Proof.
  intros cook_book shop_list.
  exact (repeated_ingredient_merged [u "A"] 2 cook_book (u "salt")
           (mkIngredient (u "salt") 2 (u "g")) eq_refl).
Defined.

End Aggregator.
(* ===================================================================== *)
(** * The aggregator over the store                                      *)
(* ===================================================================== *)

Section StoreFrame.

Implicit Types (h : list Store.object) (s : Store.state)
  (shop_list : dict Store.value Store.loc) (l : Store.loc).

Lemma Forall_dict_set {K V} `{EqDecision K} (Q : V -> Prop) (k : K) v (d : dict K V) :
  Forall (fun item => Q item.2) d -> Q v ->
  Forall (fun item => Q item.2) (dict_set k v d).
Proof.
  intros Hd Hv. induction Hd as [|[k0 v0] d H0 Hd IH]; simpl.
  - by repeat constructor.
  - destruct (decide (k = k0)); constructor; done.
Qed.

Lemma dict_get_Forall {K V} `{EqDecision K} (Q : V -> Prop) (k : K) v (d : dict K V) :
  Forall (fun item => Q item.2) d -> dict_get k d = Some v -> Q v.
Proof.
  intros Hd Hg. apply dict_get_Some_In in Hg.
  rewrite Forall_forall in Hd. apply list_elem_of_In, Hd in Hg. done.
Qed.

Lemma prefix_insert_fresh (h0 : list Store.object) h l (o : Store.object) :
  h0 `prefix_of` h -> length h0 <= l -> h0 `prefix_of` <[l := o]> h.
Proof.
  intros [k ->] Hl. rewrite insert_app_r_alt by done. by eexists.
Qed.

Lemma prefix_snoc (h0 : list Store.object) h (o : Store.object) :
  h0 `prefix_of` h -> h0 `prefix_of` h ++ [o].
Proof. intros [k ->]. exists (k ++ [o]). by rewrite app_assoc. Qed.

Lemma add_ingredient_frame (h0 : list Store.object) person_count shop_list l s :
  h0 `prefix_of` Store.heap s -> Store.fresh_for h0 shop_list ->
  Store.keeps h0 (fun _ shop_list' => Store.fresh_for h0 shop_list')
    (Store.add_ingredient person_count shop_list l s).
Proof.
  intros Hpre Hfresh.
  unfold Store.add_ingredient, Store.keeps, Store.bind, Store.load, Store.getitem,
    Store.add, Store.store, Store.alloc, Store.ret, Store.raise.
  repeat case_match; simplify_eq/=.
  all: try (split; [done|done]).
  1,2: split; [|by intros ? [= <-]];
       apply prefix_insert_fresh; [done|];
       by eapply (dict_get_Forall (fun v => length h0 <= v)).
  split; [by apply prefix_snoc|]. intros ? [= <-].
  apply (Forall_dict_set (fun v => length h0 <= v)); [done|].
  by apply prefix_length.
Qed.

Lemma for_each_keeps {A S} (h0 : list Store.object) (I : Store.state -> S -> Prop)
    (body : S -> A -> Store.M S) xs :
  (forall acc x s, I s acc -> h0 `prefix_of` Store.heap s ->
                   Store.keeps h0 I (body acc x s)) ->
  forall acc s, I s acc -> h0 `prefix_of` Store.heap s ->
                Store.keeps h0 I (Store.for_each body xs acc s).
Proof.
  intros Hbody. induction xs as [|x xs IH]; intros acc s HI Hpre; simpl.
  - split; [done|]. by intros ? [= <-].
  - unfold Store.bind. destruct (Hbody acc x s HI Hpre) as [Hpre' HI'].
    destruct (body acc x s) as [s' [e|acc']]; simpl in *.
    + split; [done|]. done.
    + apply IH; [by apply HI'|done].
Qed.

Lemma add_dish_frame (h0 : list Store.object) person_count cook_book shop_list dish s :
  h0 `prefix_of` Store.heap s -> Store.fresh_for h0 shop_list ->
  Store.keeps h0 (fun _ shop_list' => Store.fresh_for h0 shop_list')
    (Store.add_dish person_count cook_book shop_list dish s).
Proof.
  intros Hpre Hfresh. unfold Store.add_dish.
  destruct (dict_get dish cook_book) as [ingredients|].
  - apply for_each_keeps; [|done..].
    intros acc x s' HI Hpre'. by apply add_ingredient_frame.
  - split; [done|]. by intros ? [= <-].
Qed.

Lemma get_shop_list_by_dishes_keeps dishes person_count cook_book s :
  Store.keeps (Store.heap s)
    (fun _ shop_list => Store.fresh_for (Store.heap s) shop_list)
    (Store.get_shop_list_by_dishes dishes person_count cook_book s).
Proof.
  apply for_each_keeps; [|constructor|done].
  intros acc x s' HI Hpre. by apply add_dish_frame.
Qed.

(** C9.  Every object the store holds before the call, the ingredient
    records of the cook book among them, is the same object after it,
    whether the call returns or raises, and no entry of the returned
    shopping list is one of them: the entries are new objects.  (The cook
    book dict and its ingredient lists are arguments the function only
    reads.) *)
Theorem get_shop_list_by_dishes_frame dishes person_count cook_book s l o :
  Store.heap s !! l = Some o ->
  let r := Store.get_shop_list_by_dishes dishes person_count cook_book s in
  Store.heap r.1 !! l = Some o
  /\ forall shop_list, r.2 = Return shop_list ->
       forall name l', In (name, l') shop_list -> l' <> l.
Proof.
  intros Hl r.
  destruct (get_shop_list_by_dishes_keeps dishes person_count cook_book s)
    as [Hpre Hfresh].
  fold r in Hpre, Hfresh. split.
  - by eapply prefix_lookup_Some.
  - intros shop_list Hr name l' Hin ->.
    specialize (Hfresh _ Hr). unfold Store.fresh_for in Hfresh.
    rewrite Forall_forall in Hfresh.
    apply list_elem_of_In, Hfresh in Hin. simpl in Hin.
    apply lookup_lt_Some in Hl. lia.
Qed.

(** After the call for A and B the record of dish A still says salt 2 g,
    though the entry for salt has grown to 10. *)
Lemma get_shop_list_by_dishes_frame_witness :
  let r := Store.get_shop_list_by_dishes [u "A"; u "B"] 2
             Store.cook_book_refs_AB Store.store_AB in
  Store.heap r.1 !! 0
  = Some (Store.object_of_ingredient (mkIngredient (u "salt") 2 (u "g")))
  /\ forall shop_list, r.2 = Return shop_list ->
       forall name l', In (name, l') shop_list -> l' <> 0.
Proof.
  exact (get_shop_list_by_dishes_frame [u "A"; u "B"] 2
           Store.cook_book_refs_AB Store.store_AB 0 _ eq_refl).
Defined.

End StoreFrame.
Section StoreRefinement.

Implicit Types (h : list Store.object) (s : Store.state)
  (shop_list : dict Store.value Store.loc) (entries : ShopList)
  (l : Store.loc) (name : str).

Lemma entry_of_fields o e :
  Store.entry_of o = Some e ->
  dict_get (u "measure") o = Some (Store.VStr (entry_measure e))
  /\ dict_get (u "quantity") o = Some (Store.VInt (entry_quantity e)).
Proof.
  unfold Store.entry_of. intros H.
  repeat case_match; simplify_eq. done.
Qed.

Lemma ingredient_of_fields o i :
  Store.ingredient_of o = Some i ->
  dict_get (u "ingredient_name") o = Some (Store.VStr (ingredient_name i))
  /\ dict_get (u "quantity") o = Some (Store.VInt (quantity i))
  /\ dict_get (u "measure") o = Some (Store.VStr (measure i)).
Proof.
  unfold Store.ingredient_of. intros H.
  repeat case_match; simplify_eq. done.
Qed.

Lemma entry_of_set_quantity o e q :
  Store.entry_of o = Some e ->
  Store.entry_of (dict_set (u "quantity") (Store.VInt q) o)
  = Some (mkEntry (entry_measure e) q).
Proof.
  intros [Hm Hq]%entry_of_fields. unfold Store.entry_of.
  rewrite !dict_get_set, Hm.
  destruct (decide (u "measure" = u "quantity")) as [Heq|_]; [by vm_compute in Heq|].
  destruct (decide (u "quantity" = u "quantity")); done.
Qed.

Lemma entry_at_inv h item name e :
  Store.entry_at h item = Some (name, e) ->
  item.1 = Store.VStr name
  /\ exists o, h !! item.2 = Some o /\ Store.entry_of o = Some e.
Proof.
  unfold Store.entry_at. destruct item as [[n|n] l]; simpl; [done|].
  destruct (h !! l) as [o|]; simpl; [|done].
  destruct (Store.entry_of o) eqn:He; simpl; [|done].
  intros [= -> ->]. eauto.
Qed.

(** Looking a name up in the shopping list and in what it reads as. *)
Lemma represents_get h shop_list entries name :
  Forall2 (fun item e => Store.entry_at h item = Some e) shop_list entries ->
  match dict_get (Store.VStr name) shop_list with
  | Some l =>
      exists o e, h !! l = Some o /\ Store.entry_of o = Some e
                  /\ dict_get name entries = Some e
  | None => dict_get name entries = None
  end.
Proof.
  induction 1 as [|[k l0] [n0 e0] shop_list entries Hhd Htl IH]; simpl; [done|].
  apply entry_at_inv in Hhd as [Hk (o & Ho & He)]. simpl in *. subst k.
  destruct (decide (name = n0)) as [->|Hne].
  - rewrite decide_True by done. eauto.
  - rewrite decide_False by congruence. exact IH.
Qed.

Lemma entry_at_insert_ne h item l o :
  item.2 <> l -> Store.entry_at (<[l := o]> h) item = Store.entry_at h item.
Proof.
  intros Hne. unfold Store.entry_at. by rewrite list_lookup_insert_ne.
Qed.

Lemma Forall2_entry_at_insert h shop_list entries l o :
  l ∉ map snd shop_list ->
  Forall2 (fun item e => Store.entry_at h item = Some e) shop_list entries ->
  Forall2 (fun item e => Store.entry_at (<[l := o]> h) item = Some e) shop_list entries.
Proof.
  intros Hl H. induction H as [|item e shop_list entries Hhd Htl IH]; [constructor|].
  simpl in Hl. apply not_elem_of_cons in Hl as [Hne Hl].
  constructor; [|by apply IH].
  by rewrite entry_at_insert_ne.
Qed.

Lemma dict_get_In_values {K V} `{EqDecision K} (k : K) (v : V) (d : dict K V) :
  dict_get k d = Some v -> v ∈ map snd d.
Proof.
  intros H%dict_get_Some_In. apply list_elem_of_In.
  by apply (in_map snd) in H.
Qed.

(** Storing a new entry object over the one [name] refers to. *)
Lemma represents_update h shop_list entries name l o e :
  Store.represents h shop_list entries ->
  dict_get (Store.VStr name) shop_list = Some l ->
  l < length h ->
  Store.entry_of o = Some e ->
  Store.represents (<[l := o]> h) shop_list (dict_set name e entries).
Proof.
  intros [Hall Hnd] Hg Hl He. split; [|done].
  revert Hnd Hg.
  induction Hall as [|[k l0] [n0 e0] shop_list entries Hhd Htl IH];
    intros Hnd Hg; simpl in *; [done|].
  pose proof (NoDup_cons_1_1 _ _ Hnd) as Hl0.
  pose proof (NoDup_cons_1_2 _ _ Hnd) as Hnd'.
  pose proof Hhd as Hhd'.
  apply entry_at_inv in Hhd' as [Hk _]. simpl in Hk. subst k.
  destruct (decide (name = n0)) as [->|Hne].
  - rewrite decide_True in Hg by done. simplify_eq.
    constructor; [|by apply Forall2_entry_at_insert].
    unfold Store.entry_at; simpl.
    rewrite list_lookup_insert_eq by done. simpl. by rewrite He.
  - rewrite decide_False in Hg by congruence.
    constructor; [|by apply IH].
    rewrite entry_at_insert_ne; [done|]. simpl.
    intros ->. apply Hl0. by eapply dict_get_In_values.
Qed.

Lemma entry_at_snoc h item o e :
  Store.entry_at h item = Some e -> Store.entry_at (h ++ [o]) item = Some e.
Proof.
  unfold Store.entry_at. destruct item as [[n|n] l]; simpl; [done|].
  destruct (h !! l) as [o'|] eqn:Hl; simpl; [|done].
  by rewrite (lookup_app_l_Some _ _ _ _ Hl).
Qed.

Lemma represents_locs_lt h shop_list entries l :
  Forall2 (fun item e => Store.entry_at h item = Some e) shop_list entries ->
  l ∈ map snd shop_list -> l < length h.
Proof.
  induction 1 as [|item [n e] shop_list entries Hhd Htl IH]; simpl.
  - by intros ?%elem_of_nil.
  - intros [->|Hin]%elem_of_cons; [|auto].
    apply entry_at_inv in Hhd as [_ (o & Ho & _)]. by eapply lookup_lt_Some.
Qed.

(** Adding a new entry object for a name not yet listed. *)
Lemma represents_alloc h shop_list entries name o e :
  Store.represents h shop_list entries ->
  dict_get (Store.VStr name) shop_list = None ->
  Store.entry_of o = Some e ->
  Store.represents (h ++ [o])
    (dict_set (Store.VStr name) (length h) shop_list) (dict_set name e entries).
Proof.
  intros [Hall Hnd] Hg He.
  pose proof (represents_get h shop_list entries name Hall) as Hge.
  rewrite Hg in Hge.
  rewrite (dict_set_new _ _ _ Hg), (dict_set_new _ _ _ Hge). split.
  - apply Forall2_app.
    + eapply Forall2_impl; [exact Hall|]. intros item pe. apply entry_at_snoc.
    + constructor; [|constructor]. unfold Store.entry_at; simpl.
      rewrite lookup_app_r by done. rewrite Nat.sub_diag. simpl. by rewrite He.
  - rewrite map_app. simpl. apply NoDup_app. split; [done|].
    split; [|apply NoDup_singleton].
    intros l Hl ->%list_elem_of_singleton.
    apply (represents_locs_lt _ _ _ _ Hall) in Hl. lia.
Qed.

Lemma ingredient_at_prefix (h0 : list Store.object) h l i :
  h0 `prefix_of` h -> Store.ingredient_at h0 l = Some i ->
  Store.ingredient_at h l = Some i.
Proof.
  unfold Store.ingredient_at. intros Hpre H.
  destruct (h0 !! l) as [o|] eqn:Hl; [|done].
  assert (h !! l = Some o) as -> by (by eapply prefix_lookup_Some). done.
Qed.

(** One pass of the inner loop over the store does what [add_ingredient]
    does to the shopping list it reads as. *)
Lemma add_ingredient_refines person_count shop_list entries l i s :
  Store.ingredient_at (Store.heap s) l = Some i ->
  Store.represents (Store.heap s) shop_list entries ->
  exists s' shop_list',
    Store.add_ingredient person_count shop_list l s = (s', Return shop_list')
    /\ Store.represents (Store.heap s') shop_list'
         (add_ingredient person_count entries i)
    /\ Store.stdout s' = Store.stdout s.
Proof.
  unfold Store.ingredient_at. intros Hi Hrep.
  destruct (Store.heap s !! l) as [obj|] eqn:Hl; [|done]. simpl in Hi.
  apply ingredient_of_fields in Hi as (Hn & Hq & Hm).
  pose proof (represents_get _ _ _ (ingredient_name i) (proj1 Hrep)) as Hget.
  unfold Store.add_ingredient, add_ingredient, Store.bind, Store.load, Store.getitem.
  rewrite Hl, Hn. unfold Store.ret at 1. rewrite Hq. unfold Store.ret at 1.
  rewrite Hm. unfold Store.ret at 1.
  destruct (dict_get (Store.VStr (ingredient_name i)) shop_list) as [l1|] eqn:Hg.
  - destruct Hget as (o & e & Ho & He & Hge). rewrite Ho, Hge.
    destruct (entry_of_fields _ _ He) as [_ Hoq]. rewrite Hoq. simpl.
    eexists _, _. split; [done|]. split; [|done]. simpl.
    apply represents_update; [done|done|by eapply lookup_lt_Some|].
    by apply entry_of_set_quantity.
  - rewrite Hget. simpl.
    eexists _, _. split; [done|]. split; [|done]. simpl.
    by apply represents_alloc.
Qed.

Lemma add_ingredients_refines (h0 : list Store.object) person_count ls ingredients :
  Forall2 (fun l i => Store.ingredient_at h0 l = Some i) ls ingredients ->
  forall shop_list entries s,
    h0 `prefix_of` Store.heap s -> Store.fresh_for h0 shop_list ->
    Store.represents (Store.heap s) shop_list entries ->
    exists s' shop_list',
      Store.for_each (Store.add_ingredient person_count) ls shop_list s
      = (s', Return shop_list')
      /\ h0 `prefix_of` Store.heap s' /\ Store.fresh_for h0 shop_list'
      /\ Store.represents (Store.heap s') shop_list'
           (fold_left (add_ingredient person_count) ingredients entries)
      /\ Store.stdout s' = Store.stdout s.
Proof.
  induction 1 as [|l i ls ingredients Hl Htl IH];
    intros shop_list entries s Hpre Hfresh Hrep; simpl.
  - by eexists _, _.
  - destruct (add_ingredient_refines person_count shop_list entries l i s)
      as (s1 & shop1 & Hrun & Hrep1 & Hout1); [by eapply ingredient_at_prefix|done|].
    destruct (add_ingredient_frame h0 person_count shop_list l s Hpre Hfresh)
      as [Hpre1 Hfresh1].
    rewrite Hrun in Hpre1, Hfresh1. simpl in *.
    specialize (Hfresh1 _ eq_refl).
    destruct (IH shop1 _ s1 Hpre1 Hfresh1 Hrep1)
      as (s2 & shop2 & Hrun2 & Hpre2 & Hfresh2 & Hrep2 & Hout2).
    exists s2, shop2. unfold Store.bind. rewrite Hrun.
    split; [done|]. split; [done|]. split; [done|]. split; [done|]. congruence.
Qed.

(** Looking a dish up in the cook book of references and in what it reads
    as. *)
Lemma cook_book_at_get h cook_book_refs (cook_book : CookBook) dish :
  Store.cook_book_at h cook_book_refs = Some cook_book ->
  match dict_get dish cook_book_refs with
  | Some ls =>
      exists ingredients,
        dict_get dish cook_book = Some ingredients
        /\ Forall2 (fun l i => Store.ingredient_at h l = Some i) ls ingredients
  | None => dict_get dish cook_book = None
  end.
Proof.
  unfold Store.cook_book_at. intros H. apply mapM_Some in H.
  induction H as [|[d ls] [d' ingredients] refs cook_book Hhd Htl IH]; simpl; [done|].
  destruct (mapM (Store.ingredient_at h) ls) as [ingredients'|] eqn:Hm; [|done].
  simpl in Hhd. simplify_eq.
  destruct (decide (dish = d')); [|done].
  exists ingredients. split; [done|]. by apply mapM_Some.
Qed.

Lemma add_dish_refines (h0 : list Store.object) person_count cook_book_refs
    (cook_book : CookBook) dish shop_list entries s :
  Store.cook_book_at h0 cook_book_refs = Some cook_book ->
  h0 `prefix_of` Store.heap s -> Store.fresh_for h0 shop_list ->
  Store.represents (Store.heap s) shop_list entries ->
  exists s' shop_list',
    Store.add_dish person_count cook_book_refs shop_list dish s
    = (s', Return shop_list')
    /\ h0 `prefix_of` Store.heap s' /\ Store.fresh_for h0 shop_list'
    /\ Store.represents (Store.heap s') shop_list'
         (add_dish person_count cook_book (entries, Store.stdout s) dish).1
    /\ Store.stdout s'
       = (add_dish person_count cook_book (entries, Store.stdout s) dish).2.
Proof.
  intros Hcb Hpre Hfresh Hrep.
  pose proof (cook_book_at_get _ _ _ dish Hcb) as Hget.
  unfold Store.add_dish, add_dish.
  destruct (dict_get dish cook_book_refs) as [ls|].
  - destruct Hget as (ingredients & -> & Hall).
    destruct (add_ingredients_refines h0 person_count ls ingredients Hall
                shop_list entries s Hpre Hfresh Hrep)
      as (s' & shop' & Hrun & ? & ? & ? & ?).
    by exists s', shop'.
  - rewrite Hget. by eexists _, _.
Qed.

Lemma add_dishes_refines (h0 : list Store.object) person_count cook_book_refs
    (cook_book : CookBook) dishes :
  Store.cook_book_at h0 cook_book_refs = Some cook_book ->
  forall shop_list entries s,
    h0 `prefix_of` Store.heap s -> Store.fresh_for h0 shop_list ->
    Store.represents (Store.heap s) shop_list entries ->
    exists s' shop_list',
      Store.for_each (Store.add_dish person_count cook_book_refs) dishes shop_list s
      = (s', Return shop_list')
      /\ Store.represents (Store.heap s') shop_list'
           (fold_left (add_dish person_count cook_book) dishes
              (entries, Store.stdout s)).1
      /\ Store.stdout s'
         = (fold_left (add_dish person_count cook_book) dishes
              (entries, Store.stdout s)).2.
Proof.
  intros Hcb.
  induction dishes as [|dish dishes IH]; intros shop_list entries s Hpre Hfresh Hrep.
  - by eexists _, _.
  - destruct (add_dish_refines h0 person_count cook_book_refs cook_book dish
                shop_list entries s Hcb Hpre Hfresh Hrep)
      as (s1 & shop1 & Hrun & Hpre1 & Hfresh1 & Hrep1 & Hout1).
    destruct (IH shop1 _ s1 Hpre1 Hfresh1 Hrep1) as (s2 & shop2 & Hrun2 & Hrep2 & Hout2).
    exists s2, shop2. simpl. unfold Store.bind. rewrite Hrun.
    split; [done|].
    destruct (add_dish person_count cook_book (entries, Store.stdout s) dish)
      as [entries1 out1] eqn:Hd.
    simpl in *. rewrite Hout1 in Hrep2, Hout2. rewrite Hd. done.
Qed.

(** Over a store in which the cook book reads as [cook_book], the function
    returns, its shopping list reads as the one [get_shop_list_by_dishes]
    computes, and it prints the same lines. *)
Lemma get_shop_list_by_dishes_refines dishes person_count cook_book_refs
    (cook_book : CookBook) s :
  Store.cook_book_at (Store.heap s) cook_book_refs = Some cook_book ->
  exists s' shop_list,
    Store.get_shop_list_by_dishes dishes person_count cook_book_refs s
    = (s', Return shop_list)
    /\ Store.shop_list_at (Store.heap s') shop_list
       = Some (get_shop_list_by_dishes dishes person_count cook_book).1
    /\ Store.stdout s'
       = Store.stdout s ++ (get_shop_list_by_dishes dishes person_count cook_book).2.
Proof.
  intros Hcb.
  destruct (add_dishes_refines (Store.heap s) person_count cook_book_refs cook_book
              dishes Hcb [] [] s)
    as (s' & shop' & Hrun & [Hrep _] & Hout).
  { done. } { constructor. } { split; constructor. }
  exists s', shop'. split; [done|].
  rewrite fold_add_dish in Hrep, Hout. simpl in *.
  rewrite get_shop_list_by_dishes_flat. simpl.
  split; [|done]. unfold Store.shop_list_at. by apply mapM_Some.
Qed.


End StoreRefinement.
(* ===================================================================== *)
(** * Properties of the file merger                                      *)
(* ===================================================================== *)

Section Sorting.

Context {A : Type} (key : A -> nat).
Implicit Types (l : list A) (x : A).

Lemma insert_by_perm x l : Permutation (insert_by key x l) (x :: l).
Proof.
  induction l as [|y l IH]; simpl; [done|].
  destruct (key x <=? key y); [done|].
  rewrite IH. apply perm_swap.
Qed.

Lemma sorted_perm l : Permutation (sorted key l) l.
Proof.
  induction l as [|x l IH]; simpl; [done|].
  by rewrite insert_by_perm, IH.
Qed.

Lemma insert_by_HdRel a x l :
  key a <= key x -> HdRel (key_le key) a l -> HdRel (key_le key) a (insert_by key x l).
Proof.
  intros Hax Hl. destruct l as [|y l]; simpl.
  - by constructor.
  - destruct (key x <=? key y); constructor; [done|].
    by inversion Hl.
Qed.

Lemma insert_by_Sorted x l :
  Sorted (key_le key) l -> Sorted (key_le key) (insert_by key x l).
Proof.
  induction 1 as [|y l Hs IH Hhd]; simpl.
  - by repeat constructor.
  - destruct (key x <=? key y) eqn:Hle.
    + apply Nat.leb_le in Hle. by repeat constructor.
    + apply Nat.leb_gt in Hle. constructor; [done|].
      apply insert_by_HdRel; [unfold key_le; lia|done].
Qed.

Lemma sorted_Sorted l : Sorted (key_le key) (sorted key l).
Proof.
  induction l as [|x l IH]; simpl; [constructor|]. by apply insert_by_Sorted.
Qed.

(** Inserting [x] puts it before the elements of its own key. *)
Lemma filter_insert_by n x l :
  List.filter (fun y => key y =? n) (insert_by key x l)
  = List.filter (fun y => key y =? n) (x :: l).
Proof.
  induction l as [|y l IH]; [done|].
  cbn [insert_by]. destruct (key x <=? key y) eqn:Hle; [done|].
  apply Nat.leb_gt in Hle.
  cbn [List.filter] in *. rewrite IH.
  destruct (key x =? n) eqn:Hx; [|done].
  apply Nat.eqb_eq in Hx.
  destruct (key y =? n) eqn:Hy; [|done].
  apply Nat.eqb_eq in Hy. lia.
Qed.

(** Stability: the elements of one key stay in the order they came in. *)
Lemma sorted_stable n l :
  List.filter (fun y => key y =? n) (sorted key l)
  = List.filter (fun y => key y =? n) l.
Proof.
  induction l as [|x l IH]; [done|].
  cbn [sorted]. rewrite filter_insert_by. cbn [List.filter]. by rewrite IH.
Qed.

Lemma filter_key_nil l :
  (forall n, List.filter (fun y => key y =? n) l = []) -> l = [].
Proof.
  destruct l as [|x l]; [done|]. intros H. specialize (H (key x)).
  simpl in H. by rewrite Nat.eqb_refl in H.
Qed.

Lemma key_le_head a l x : Sorted (key_le key) (a :: l) -> In x (a :: l) -> key a <= key x.
Proof.
  intros Hs Hin. apply Sorted_StronglySorted in Hs.
  2:{ intros x1 x2 x3. unfold key_le. lia. }
  apply StronglySorted_inv in Hs as [_ Hall].
  destruct Hin as [->|Hin]; [done|].
  rewrite Forall_forall in Hall. apply Hall. by apply list_elem_of_In.
Qed.

(** An ascending list is determined by the order within each key. *)
Lemma Sorted_filter_eq l1 l2 :
  Sorted (key_le key) l1 -> Sorted (key_le key) l2 ->
  (forall n, List.filter (fun y => key y =? n) l1
             = List.filter (fun y => key y =? n) l2) ->
  l1 = l2.
Proof.
  revert l2. induction l1 as [|a t1 IH]; intros l2 Hs1 Hs2 Heq.
  - symmetry. apply filter_key_nil. intros n. by rewrite <- Heq.
  - destruct l2 as [|b t2].
    { apply filter_key_nil. intros n. by rewrite Heq. }
    assert (Hab : key a = key b).
    { assert (In b (a :: t1)) as Hb.
      { apply (filter_In (fun y => key y =? key b)).
        rewrite Heq. simpl. rewrite Nat.eqb_refl. by left. }
      assert (In a (b :: t2)) as Ha.
      { apply (filter_In (fun y => key y =? key a)).
        rewrite <- Heq. simpl. rewrite Nat.eqb_refl. by left. }
      pose proof (key_le_head _ _ _ Hs1 Hb). pose proof (key_le_head _ _ _ Hs2 Ha).
      lia. }
    pose proof (Heq (key a)) as Hk. simpl in Hk.
    rewrite <- Hab, Nat.eqb_refl in Hk. injection Hk as -> Hk.
    f_equal. apply IH.
    + by inversion Hs1.
    + by inversion Hs2.
    + intros n. specialize (Heq n). simpl in Heq.
      destruct (key b =? n) eqn:Hn; [|done].
      by injection Heq.
Qed.

(** [sorted] is the one stable ascending arrangement. *)
Lemma sorted_unique l l' :
  Sorted (key_le key) l' ->
  (forall n, List.filter (fun y => key y =? n) l'
             = List.filter (fun y => key y =? n) l) ->
  l' = sorted key l.
Proof.
  intros Hs Heq. apply Sorted_filter_eq; [done|apply sorted_Sorted|].
  intros n. by rewrite Heq, sorted_stable.
Qed.

End Sorting.

Section Merger.

Variable os : OS.
Implicit Types (directory output_file content : str) (names : list str)
  (files_info records : dict str (list str)).

(** The directory as the first loop finds it when every regular file can
    be read. *)
Lemma collect_all directory (lines_of : str -> list str) names files_info :
  (forall name, In name names ->
     isfile os (path_join directory name) = true ->
     readlines os (path_join directory name) = Return (lines_of name)) ->
  collect os directory names files_info
  = Return (fold_left
              (fun acc name =>
                 if isfile os (path_join directory name)
                 then dict_set name (lines_of name) acc else acc)
              names files_info).
Proof.
  revert files_info.
  induction names as [|name names IH]; intros files_info Hread; [done|].
  simpl. destruct (isfile os (path_join directory name)) eqn:Hf.
  - rewrite (Hread name) by (by left || done). simpl.
    apply IH. intros n Hn. apply Hread. by right.
  - apply IH. intros n Hn. apply Hread. by right.
Qed.

Lemma collect_fold_NoDup (f : str -> bool) (lines_of : str -> list str) names files_info :
  NoDup (keys files_info ++ names) ->
  fold_left (fun acc name => if f name then dict_set name (lines_of name) acc else acc)
    names files_info
  = files_info ++ map (fun name => (name, lines_of name)) (List.filter f names).
Proof.
  revert files_info.
  induction names as [|name names IH]; intros files_info Hnd; simpl.
  - by rewrite app_nil_r.
  - assert (Hfresh : dict_get name files_info = None).
    { destruct (dict_get name files_info) eqn:Hg; [|done]. exfalso.
      apply NoDup_app in Hnd as (_ & Hdis & _).
      apply (Hdis name); [|by left].
      apply list_elem_of_In, dict_get_keys. by eexists. }
    destruct (f name).
    + rewrite IH.
      * rewrite (dict_set_new _ _ _ Hfresh). by rewrite <- app_assoc.
      * rewrite keys_dict_set. unfold dict_in. rewrite Hfresh.
        rewrite <- app_assoc. done.
    + apply IH. apply NoDup_app in Hnd as (H1 & H2 & H3).
      apply NoDup_app. split; [done|]. split.
      * intros x Hx Hx'. apply (H2 x Hx). by right.
      * by apply NoDup_cons_1_2 in H3.
Qed.

Lemma writelines_ok output_file content lines :
  (forall content data, write_fails os output_file content data = None) ->
  writelines os output_file content lines = Return (content ++ concat lines).
Proof.
  intros Hw. revert content.
  induction lines as [|line lines IH]; intros content; simpl.
  - by rewrite app_nil_r.
  - unfold write. rewrite Hw. simpl. rewrite IH. by rewrite <- app_assoc.
Qed.

Lemma write_records_ok output_file content records :
  (forall content data, write_fails os output_file content data = None) ->
  write_records os output_file content records
  = Return (content ++ concat (map block records)).
Proof.
  intros Hw. revert content.
  induction records as [|[filename lines] records IH]; intros content; simpl.
  - by rewrite app_nil_r.
  - unfold write. repeat (rewrite Hw; simpl). rewrite writelines_ok by done. simpl.
    rewrite IH. unfold block. simpl. rewrite <- !app_assoc. simpl.
    by rewrite <- !app_assoc.
Qed.

(** C7.  When the directory lists [names] and every operation on the
    files succeeds, [merge_files] leaves in the output file the blocks of
    the regular files (name line, line-count line, the lines as they are)
    in ascending order of line count, files of equal count in the order of
    enumeration; three files of 5, 1 and 3 lines come out in the order
    1, 3, 5. *)
Theorem merge_files_sorted directory output_file names (lines_of : str -> list str) :
  listdir os directory = Return names ->
  NoDup names ->
  (forall name, In name names ->
     isfile os (path_join directory name) = true ->
     readlines os (path_join directory name) = Return (lines_of name)) ->
  open_write os output_file = Return tt ->
  (forall content data, write_fails os output_file content data = None) ->
  (forall content, close_write os output_file content = Return tt) ->
  let records :=
    map (fun name => (name, lines_of name))
      (List.filter (fun name => isfile os (path_join directory name)) names) in
  let sorted_files := sorted (fun r => length r.2) records in
  merge_files os directory output_file = Return (concat (map block sorted_files))
  /\ Sorted (key_le (fun r => length r.2)) sorted_files
  /\ (forall n,
        List.filter (fun r => length r.2 =? n) sorted_files
        = List.filter (fun r => length r.2 =? n) records)
  /\ Permutation sorted_files records
  /\ (forall a b c,
        records = [a; b; c] ->
        length a.2 = 5 -> length b.2 = 1 -> length c.2 = 3 ->
        sorted_files = [b; c; a]).
Proof.
  intros Hlist Hnd Hread Hopen Hwrite Hclose records sorted_files.
  split; [|split; [|split; [|split]]].
  - unfold merge_files, merge_body. rewrite Hlist. simpl.
    rewrite (collect_all directory lines_of) by done. simpl.
    rewrite collect_fold_NoDup by done. simpl.
    rewrite Hopen. simpl. rewrite write_records_ok by done. simpl.
    by rewrite Hclose.
  - apply sorted_Sorted.
  - intros n. apply sorted_stable.
  - apply sorted_perm.
  - intros a b c Heq Ha Hb Hc. unfold sorted_files. rewrite Heq.
    cbn [sorted insert_by]. rewrite Hb, Hc. cbn [Nat.leb insert_by].
    rewrite Ha, Hb, Hc. reflexivity.
Qed.

End Merger.

Section MergerExamples.

(** The call of [main]: the files of 5, 1 and 3 lines merged into a file
    of the same directory. *)
Lemma merge_files_sorted_witness :
  merge_files (flat_dir (u "files") three_files) (u "files") (u "files/merged_file.txt")
  = Return (u "b.txt
1
b1
c.txt
3
c1
c2
c3
a.txt
5
a1
a2
a3
a4
a5
").
Proof.
  refine (proj1 (merge_files_sorted (flat_dir (u "files") three_files)
                   (u "files") (u "files/merged_file.txt") (keys three_files)
                   (fun name => default [] (dict_get name three_files))
                   eq_refl _ _ eq_refl (fun _ _ => eq_refl) (fun _ => eq_refl))).
  - apply (bool_decide_unpack _). vm_compute. reflexivity.
  - intros name [<-|[<-|[<-|[]]]] _; vm_compute; reflexivity.
Defined.

(** C4 fails on the code.  The directory [files] exists and is read, the
    output file cannot be created because [missing] does not exist, and
    [merge_files] raises [FileNotFoundError] saying that [files] was not
    found, instead of wrapping the failure of the write. *)
Theorem merge_files_blames_directory :
  listdir (flat_dir (u "files") three_files) (u "files")
  = Return [u "a.txt"; u "b.txt"; u "c.txt"]
  /\ open_write (flat_dir (u "files") three_files) (u "missing/merged.txt")
     = Raise (errno2 (u "missing/merged.txt"))
  /\ merge_files (flat_dir (u "files") three_files) (u "files") (u "missing/merged.txt")
     = Raise (FileNotFoundError (u "Директория 'files' не найдена.")).
Proof. repeat split; vm_compute; reflexivity. Qed.

(** What does hold of the errors of [merge_files]. *)
Lemma merge_files_missing_directory os directory output_file msg :
  listdir os directory = Raise (FileNotFoundError msg) ->
  merge_files os directory output_file
  = Raise (FileNotFoundError (msg_dir_not_found directory)).
Proof. intros H. unfold merge_files, merge_body. by rewrite H. Qed.

Lemma merge_files_raises os directory output_file e :
  merge_files os directory output_file = Raise e ->
  e = FileNotFoundError (msg_dir_not_found directory)
  \/ exists e', merge_body os directory output_file = Raise e'
                /\ e = ValueError (msg_merge_error e').
Proof.
  unfold merge_files.
  destruct (merge_body os directory output_file) as [[m|m|c m]|content];
    intros [= <-]; eauto.
Qed.

End MergerExamples.
(* ===================================================================== *)
(** * Further properties of the parser                                   *)
(* ===================================================================== *)

Section ParserMore.

Implicit Types (file text line raw : str) (cook_book : CookBook).

(** X1.  The [while True] loop of [read_cook_book] ends on every text:
    with any fuel above the length of the text the loop gives one and the
    same outcome, a cook book or an exception. *)
Theorem read_loop_terminates cook_book text :
  exists r, forall fuel, length text < fuel ->
    read_loop fuel cook_book text = Some r.
Proof.
  destruct (read_loop_total (S (length text)) cook_book text) as [r Hr]; [lia|].
  exists r. intros fuel Hfuel. by rewrite read_loop_fuel.
Qed.

Lemma read_ingredients_raises dish_name k ingredients file e :
  read_ingredients dish_name k ingredients file = Raise e ->
  exists msg, e = ValueError msg.
Proof.
  revert ingredients file.
  induction k as [|k IH]; intros ingredients file H; simpl in H; [done|].
  destruct (readline file) as [raw rest].
  destruct (strip raw); [by simplify_eq; eauto|].
  destruct (split _ _) as [|f1 [|f2 [|f3 [|f4 fs]]]]; try (by simplify_eq; eauto).
  destruct (int f2); [by eapply IH|by simplify_eq; eauto].
Qed.

Lemma read_dish_raises cook_book file e :
  read_dish cook_book file = Raise e -> exists msg, e = ValueError msg.
Proof.
  unfold read_dish. intros H.
  destruct (readline file) as [raw file1].
  destruct (strip raw); [done|].
  destruct (readline file1) as [raw_count file2].
  destruct (int _); [|by simplify_eq; eauto].
  destruct (read_ingredients _ _ _ _) as [e'|[ingredients file3]] eqn:Hr.
  - simplify_eq. by eapply read_ingredients_raises.
  - by destruct (readline file3).
Qed.

Lemma read_loop_raises fuel cook_book file e :
  read_loop fuel cook_book file = Some (Raise e) -> exists msg, e = ValueError msg.
Proof.
  revert cook_book file.
  induction fuel as [|fuel IH]; intros cook_book file H; [done|]. simpl in H.
  destruct (read_dish cook_book file) as [e'|[[cook_book' file']|]] eqn:Hd.
  - simplify_eq. by eapply read_dish_raises.
  - by eapply IH.
  - done.
Qed.

(** X2.  [read_cook_book] raises [FileNotFoundError] exactly when opening
    the file does, and then with its own message that quotes the path,
    whatever the message of the operating system was. *)
Theorem read_cook_book_not_found_iff open_read file_path :
  ((exists msg, read_cook_book open_read file_path
                = Some (Raise (FileNotFoundError msg)))
   <-> (exists msg, open_read file_path = Raise (FileNotFoundError msg)))
  /\ (forall msg,
        read_cook_book open_read file_path = Some (Raise (FileNotFoundError msg)) ->
        msg = msg_file_not_found file_path).
Proof.
  unfold read_cook_book.
  destruct (open_read file_path) as [e|text] eqn:Hopen.
  - destruct e as [m|m|c m]; (split; [split|]); try (by intros [? ?]);
      try (by intros ? [= <-]); try done.
    + intros _. by eexists.
    + intros _. by eexists.
  - destruct (read_loop _ _ _) as [[e|cb]|] eqn:Hl;
      (split; [split|]); try (by intros [? ?]); try done.
    + destruct (read_loop_raises _ _ _ _ Hl) as [m ->]. by intros [? ?].
    + destruct (read_loop_raises _ _ _ _ Hl) as [m ->]. done.
Qed.

Lemma read_ingredients_format_error dish_name k ingredients file e :
  read_ingredients dish_name k ingredients file = Raise e ->
  exists msg, e = ValueError msg /\ format_error dish_name msg.
Proof.
  unfold format_error. revert ingredients file.
  induction k as [|k IH]; intros ingredients file H; simpl in H; [done|].
  destruct (readline file) as [raw rest].
  destruct (strip raw) as [|c0 l0].
  { injection H as <-. eexists. split; [reflexivity|]. right. left. reflexivity. }
  destruct (split _ _) as [|f1 [|f2 [|f3 [|f4 fs]]]];
    try (injection H as <-; eexists; split; [reflexivity|];
         right; right; left; eexists; reflexivity).
  destruct (int f2); [by eapply IH|].
  injection H as <-. eexists. split; [reflexivity|].
  right. right. right. eexists. reflexivity.
Qed.

Lemma read_dish_format_error text cook_book j e :
  read_dish cook_book (after_lines j text) = Raise e ->
  strip (nth_line j text) <> []
  /\ exists msg, e = ValueError msg /\ format_error (strip (nth_line j text)) msg.
Proof.
  unfold read_dish, nth_line. intros H.
  destruct (readline (after_lines j text)) as [raw file1]; simpl.
  destruct (strip raw) as [|c0 name0]; [done|]. split; [done|].
  destruct (readline file1) as [raw_count file2].
  destruct (int _).
  - destruct (read_ingredients _ _ _ _) as [e'|[ingredients file3]] eqn:Hr.
    + simplify_eq. by eapply read_ingredients_format_error.
    + by destruct (readline file3).
  - injection H as <-. eexists. split; [reflexivity|]. left. reflexivity.
Qed.

Lemma read_loop_format_error text fuel cook_book j e :
  read_loop fuel cook_book (after_lines j text) = Some (Raise e) ->
  exists j' msg,
    strip (nth_line j' text) <> []
    /\ e = ValueError msg /\ format_error (strip (nth_line j' text)) msg.
Proof.
  revert cook_book j.
  induction fuel as [|fuel IH]; intros cook_book j H; [done|]. simpl in H.
  destruct (read_dish cook_book (after_lines j text))
    as [e'|[[cook_book' file']|]] eqn:Hd.
  - simplify_eq. apply read_dish_format_error in Hd as [Hne (msg & -> & Hf)].
    by exists j, msg.
  - assert (exists j1, file' = after_lines j1 text) as [j1 ->].
    { unfold read_dish in Hd.
      destruct (readline (after_lines j text)) as [raw file1] eqn:Hrl.
      destruct (strip raw); [done|].
      destruct (readline file1) as [raw_count file2] eqn:Hrl1.
      destruct (int _) as [n|]; [|done].
      destruct (read_ingredients _ _ _ _) as [|[ingredients file3]] eqn:Hr; [done|].
      destruct (readline file3) as [sep file4] eqn:Hrl3. simplify_eq.
      clear IH H.
      assert (Hpos : forall dish k ings f ings' f' i,
                 read_ingredients dish k ings f = Return (ings', f') ->
                 f = after_lines i text -> exists i', f' = after_lines i' text).
      { intros dish.
        induction k as [|k IHk]; intros ings f ings' f' i Hk ->; simpl in Hk.
        - simplify_eq. by eexists.
        - destruct (readline (after_lines i text)) as [r rest] eqn:Hri.
          destruct (strip r); [done|].
          destruct (split _ _) as [|f1 [|f2 [|f3 [|f4 fs]]]]; try done.
          destruct (int f2); [|done].
          eapply (IHk _ _ _ _ (S i)); [exact Hk|].
          by rewrite after_lines_S, Hri. }
      destruct (Hpos _ _ _ _ _ _ (S (S j)) Hr) as [i' ->].
      { rewrite !after_lines_S, Hrl. simpl. by rewrite Hrl1. }
      exists (S i'). by rewrite after_lines_S, Hrl3. }
    by eapply IH.
  - done.
Qed.

(** X3.  On a file that opens and decodes, every exception of
    [read_cook_book] is a [ValueError] whose message is the read-error
    text with the path followed by one of the four format messages of the
    loop (bad count, too few ingredients, bad ingredient format, bad
    quantity), made for a dish whose name stands on a line of the file;
    the message quotes the path and that dish. *)
Theorem read_cook_book_format_errors open_read file_path text e :
  open_read file_path = Return text ->
  read_cook_book open_read file_path = Some (Raise e) ->
  exists j msg,
    strip (nth_line j text) <> []
    /\ format_error (strip (nth_line j text)) msg
    /\ e = ValueError (msg_read_error file_path (ValueError msg))
    /\ contains (quoted file_path) (exc_str e)
    /\ contains (quoted (strip (nth_line j text))) (exc_str e).
Proof.
  unfold read_cook_book. intros Hopen H. rewrite Hopen in H.
  destruct (read_loop _ _ _) as [[e0|cb]|] eqn:Hl; try done.
  apply (read_loop_format_error text _ [] 0) in Hl
    as (j & msg & Hne & -> & Hf).
  simplify_eq. exists j, msg. split; [done|]. split; [done|]. split; [done|].
  split.
  { exists (removelast (u "Ошибка при чтении файла '")),
           (u ": " ++ exc_str (ValueError msg)).
    simpl. unfold msg_read_error, quoted. rewrite <- !app_assoc. reflexivity. }
  simpl. apply msg_read_error_names. simpl.
  destruct Hf as [->|[->|[[line ->]|[i ->]]]].
  - apply msg_bad_count_names.
  - apply msg_too_few_names.
  - apply msg_bad_format_names.
  - apply msg_bad_quantity_names.
Qed.

(** A count line that is a word. *)
Lemma read_cook_book_format_errors_witness :
  let text := u "Омлет
два
" in
  let open_read := one_file (u "recipes.txt") text in
  let file_path := u "recipes.txt" in
  let e := ValueError (msg_read_error file_path
                         (ValueError (msg_bad_count (u "Омлет")))) in
  exists j msg,
    strip (nth_line j text) <> []
    /\ format_error (strip (nth_line j text)) msg
    /\ e = ValueError (msg_read_error file_path (ValueError msg))
    /\ contains (quoted file_path) (exc_str e)
    /\ contains (quoted (strip (nth_line j text))) (exc_str e).
Proof.
  intros text open_read file_path e.
  apply (read_cook_book_format_errors open_read file_path text e).
  - vm_compute. reflexivity.
  - vm_compute. reflexivity.
Defined.

(** X4.  A blank line where a dish name is due ends the parsing: the
    dishes stored so far are returned and whatever follows the blank line
    is never read. *)
Theorem read_cook_book_stops_at_blank open_read file_path text cook_book file :
  open_read file_path = Return text ->
  reaches text cook_book file ->
  strip (readline file).1 = [] ->
  read_cook_book open_read file_path = Some (Return cook_book).
Proof.
  intros Hopen Hreach Hblank. unfold read_cook_book. rewrite Hopen.
  rewrite (reaches_read_loop _ _ _ Hreach). simpl. unfold read_dish.
  destruct (readline file) as [raw file1]. simpl in Hblank. by rewrite Hblank.
Qed.

(** Two blank lines after the first dish: the second dish is lost. *)
Lemma read_cook_book_stops_at_blank_witness :
  read_cook_book (one_file (u "recipes.txt") (u "Омлет
1
Яйцо | 2 | шт


Каша
1
Крупа | 50 | г
")) (u "recipes.txt")
  = Some (Return [(u "Омлет", [mkIngredient (u "Яйцо") 2 (u "шт")])]).
Proof.
  apply (read_cook_book_stops_at_blank _ _ (u "Омлет
1
Яйцо | 2 | шт


Каша
1
Крупа | 50 | г
") _ (u "
Каша
1
Крупа | 50 | г
")).
  - reflexivity.
  - eapply reaches_next; [apply reaches_start|]. vm_compute. reflexivity.
  - vm_compute. reflexivity.
Defined.

(** X5.  A dish name followed by a count line that [int] rejects (a word,
    a blank line, the end of the stream) makes [read_cook_book] raise
    [ValueError] with the bad-count message for that dish inside the
    read-error message. *)
Theorem read_cook_book_bad_count open_read file_path text cook_book file :
  open_read file_path = Return text ->
  reaches text cook_book file ->
  strip (readline file).1 <> [] ->
  int (strip (readline (readline file).2).1) = None ->
  read_cook_book open_read file_path
  = Some (Raise (ValueError
       (msg_read_error file_path
          (ValueError (msg_bad_count (strip (readline file).1)))))).
Proof.
  intros Hopen Hreach Hname Hcount.
  apply (read_cook_book_raises _ _ _ _ _ _ Hopen Hreach).
  unfold read_dish.
  destruct (readline file) as [raw file1]; simpl in *.
  destruct (strip raw) as [|c0 name0]; [done|].
  destruct (readline file1) as [raw_count file2]; simpl in *.
  by rewrite Hcount.
Qed.

(** The stream ends right after the name of the second dish. *)
Lemma read_cook_book_bad_count_witness :
  read_cook_book (one_file (u "recipes.txt") (u "Омлет
0

Каша")) (u "recipes.txt")
  = Some (Raise (ValueError
       (u "Ошибка при чтении файла 'recipes.txt': Некорректное количество ингредиентов для блюда 'Каша'"))).
Proof.
  assert (Hreach : reaches (u "Омлет
0

Каша") [(u "Омлет", [])] (u "Каша")).
  { eapply reaches_next; [apply reaches_start|]. vm_compute. reflexivity. }
  pose proof (read_cook_book_bad_count (one_file (u "recipes.txt") (u "Омлет
0

Каша")) (u "recipes.txt") _ _ _ eq_refl Hreach) as W.
  vm_compute in W. vm_compute. apply W; [discriminate|reflexivity].
Defined.

End ParserMore.
Section ParserBlocks.

Implicit Types (file text line raw : str) (cook_book : CookBook).

Lemma next_lines_S k file :
  next_lines (S k) file = (readline file).1 :: next_lines k (readline file).2.
Proof.
  unfold next_lines. simpl. f_equal. by rewrite <- seq_shift, map_map.
Qed.

Lemma after_lines_add a b file :
  after_lines (a + b) file = after_lines b (after_lines a file).
Proof. revert file. induction a as [|a IH]; intros file; simpl; [done|apply IH]. Qed.

(** The ingredient loop on [k] lines it accepts. *)
Lemma read_ingredients_ok dish_name k ingredients file new :
  Forall2 (fun raw i => ingredient_of_line raw = Some i) (next_lines k file) new ->
  read_ingredients dish_name k ingredients file
  = Return (ingredients ++ new, after_lines k file).
Proof.
  revert ingredients file new.
  induction k as [|k IH]; intros ingredients file new H.
  - inversion H. simpl. by rewrite app_nil_r.
  - rewrite next_lines_S in H. inversion H as [|raw0 i ls new' Hi Hrest]; subst.
    simpl. unfold ingredient_of_line in Hi.
    destruct (readline file) as [raw rest]; simpl in *.
    destruct (strip raw) as [|c0 l0]; [by vm_compute in Hi|].
    destruct (split _ (c0 :: l0)) as [|f1 [|f2 [|f3 [|f4 fs]]]]; try done.
    destruct (int f2) as [q|]; [|done]. simplify_eq.
    rewrite (IH _ _ _ Hrest). by rewrite <- app_assoc.
Qed.

(** X6.  A dish block whose count line reads [n] and whose next [n] lines
    are all accepted is stored under its name, in place of an earlier dish
    of that name if there is one, with the ingredients in the order of
    their lines; the line after them is passed over unread, blank or
    not. *)
Theorem read_dish_well_formed cook_book file n ingredients :
  strip (nth_line 0 file) <> [] ->
  int (strip (nth_line 1 file)) = Some n ->
  mapM ingredient_of_line (next_lines (Z.to_nat n) (after_lines 2 file))
  = Some ingredients ->
  read_dish cook_book file
  = Return (Some (dict_set (strip (nth_line 0 file)) ingredients cook_book,
                  after_lines (Z.to_nat n + 3) file)).
Proof.
  unfold nth_line. simpl. intros Hname Hcount Hlines.
  apply mapM_Some in Hlines.
  replace (Z.to_nat n + 3) with (2 + S (Z.to_nat n)) by lia.
  rewrite after_lines_add, after_lines_S. simpl. unfold read_dish.
  destruct (readline file) as [raw file1]; simpl in *.
  destruct (strip raw) as [|c0 name0]; [done|].
  destruct (readline file1) as [raw_count file2]; simpl in *.
  rewrite Hcount.
  rewrite (read_ingredients_ok _ _ [] _ _ Hlines). simpl.
  by destruct (readline (after_lines (Z.to_nat n) file2)).
Qed.

(** No blank line between the dishes: the name of the second dish is taken
    for the separator, and the first dish replaces its earlier version. *)
Lemma read_dish_well_formed_witness :
  read_dish [(u "Омлет", []); (u "Суп", [])] (u "Омлет
2
Яйцо | 2 | шт
Молоко | 100 | мл
Каша
1
")
  = Return (Some ([(u "Омлет", [mkIngredient (u "Яйцо") 2 (u "шт");
                                mkIngredient (u "Молоко") 100 (u "мл")]);
                   (u "Суп", [])],
                  u "1
")).
Proof.
  apply (read_dish_well_formed [(u "Омлет", []); (u "Суп", [])] (u "Омлет
2
Яйцо | 2 | шт
Молоко | 100 | мл
Каша
1
") 2 [mkIngredient (u "Яйцо") 2 (u "шт"); mkIngredient (u "Молоко") 100 (u "мл")]).
  - vm_compute. discriminate.
  - vm_compute. reflexivity.
  - vm_compute. reflexivity.
Defined.

(** X7.  A count of zero or less is accepted: no ingredient line is read,
    the dish is stored with an empty ingredient list, and the next line is
    passed over as the separator. *)
Theorem read_dish_no_ingredients cook_book file n :
  strip (nth_line 0 file) <> [] ->
  int (strip (nth_line 1 file)) = Some n ->
  (n <= 0)%Z ->
  read_dish cook_book file
  = Return (Some (dict_set (strip (nth_line 0 file)) [] cook_book,
                  after_lines 3 file)).
Proof.
  unfold nth_line. simpl. intros Hname Hcount Hn. unfold read_dish.
  destruct (readline file) as [raw file1]; simpl in *.
  destruct (strip raw) as [|c0 name0]; [done|].
  destruct (readline file1) as [raw_count file2]; simpl in *.
  rewrite Hcount. replace (Z.to_nat n) with 0 by lia. simpl.
  by destruct (readline file2).
Qed.

Lemma read_dish_no_ingredients_witness :
  read_dish [] (u "Вода
-3
Соль | 1 | г
Каша
")
  = Return (Some ([(u "Вода", [])], u "Каша
")).
Proof.
  apply (read_dish_no_ingredients [] (u "Вода
-3
Соль | 1 | г
Каша
") (-3)).
  - vm_compute. discriminate.
  - vm_compute. reflexivity.
  - lia.
Defined.

(** What a successful call of the ingredient loop returns. *)
Lemma read_ingredients_result dish_name k ingredients file ingredients' file' :
  read_ingredients dish_name k ingredients file = Return (ingredients', file') ->
  length ingredients' = length ingredients + k /\ file' = after_lines k file.
Proof.
  revert ingredients file.
  induction k as [|k IH]; intros ingredients file H; simpl in H.
  - simplify_eq. split; [lia|done].
  - destruct (readline file) as [raw rest] eqn:Hrl.
    destruct (strip raw); [done|].
    destruct (split _ _) as [|f1 [|f2 [|f3 [|f4 fs]]]]; try done.
    destruct (int f2); [|done].
    apply IH in H as [Hlen ->]. rewrite length_app in Hlen. simpl in *.
    rewrite Hrl. simpl. split; [lia|done].
Qed.

(** A pass that goes round again has stored one more block of the text. *)
Lemma read_dish_stored text cook_book j cook_book' file' :
  read_dish cook_book (after_lines j text) = Return (Some (cook_book', file')) ->
  stored text cook_book cook_book' /\ exists j', file' = after_lines j' text.
Proof.
  unfold read_dish, stored. intros H.
  destruct (readline (after_lines j text)) as [raw file1] eqn:Hrl.
  assert (Hn0 : nth_line j text = raw) by (unfold nth_line; by rewrite Hrl).
  assert (H1 : after_lines (S j) text = file1) by by rewrite after_lines_S, Hrl.
  destruct (strip raw) as [|c0 l0] eqn:Hs; [done|].
  destruct (readline file1) as [raw_count file2] eqn:Hrl1.
  assert (Hn1 : nth_line (S j) text = raw_count).
  { unfold nth_line. by rewrite H1, Hrl1. }
  assert (H2 : after_lines (S (S j)) text = file2).
  { by rewrite after_lines_S, H1, Hrl1. }
  destruct (int (strip raw_count)) as [n|] eqn:Hint; [|done].
  destruct (read_ingredients _ _ _ _) as [|[ingredients file3]] eqn:Hr; [done|].
  apply read_ingredients_result in Hr as [Hlen Hfile3].
  destruct (readline file3) as [sep file4] eqn:Hrl3.
  injection H as <- <-. split.
  - exists j, n, ingredients. rewrite Hn0, Hn1, Hs. done.
  - exists (S (S j) + S (Z.to_nat n)).
    by rewrite after_lines_add, H2, after_lines_S, <- Hfile3, Hrl3.
Qed.

(** A property of the empty cook book that storing a block keeps holds of
    every cook book the loop returns. *)
Lemma read_loop_invariant (I : CookBook -> Prop) text :
  (forall cook_book cook_book', I cook_book -> stored text cook_book cook_book' ->
                                I cook_book') ->
  forall fuel cook_book j cook_book',
    I cook_book ->
    read_loop fuel cook_book (after_lines j text) = Some (Return cook_book') ->
    I cook_book'.
Proof.
  intros Hstep. induction fuel as [|fuel IH]; intros cook_book j cook_book' HI H; [done|].
  simpl in H.
  destruct (read_dish cook_book (after_lines j text))
    as [e|[[cook_book1 file1]|]] eqn:Hd; [done| |by simplify_eq].
  apply read_dish_stored in Hd as [Hst [j1 ->]].
  eapply IH; [|done]. by eapply Hstep.
Qed.

Lemma read_cook_book_invariant (I : CookBook -> Prop) open_read file_path cook_book :
  I [] ->
  (forall text cook_book cook_book',
     open_read file_path = Return text ->
     I cook_book -> stored text cook_book cook_book' -> I cook_book') ->
  read_cook_book open_read file_path = Some (Return cook_book) ->
  I cook_book.
Proof.
  unfold read_cook_book. intros H0 Hstep H.
  destruct (open_read file_path) as [e|text] eqn:Hopen; [by destruct e|].
  destruct (read_loop _ _ _) as [[[]|cook_book']|] eqn:Hl; try done.
  simplify_eq.
  exact (read_loop_invariant I text
           (fun cb cb' HI Hst => Hstep text cb cb' eq_refl HI Hst)
           _ [] 0 _ H0 Hl).
Qed.

(** What a successful call of the ingredient loop has read. *)
Lemma read_ingredients_lines dish_name k ingredients file ingredients' file' :
  read_ingredients dish_name k ingredients file = Return (ingredients', file') ->
  exists new,
    Forall2 (fun raw i => ingredient_of_line raw = Some i) (next_lines k file) new
    /\ ingredients' = ingredients ++ new.
Proof.
  revert ingredients file.
  induction k as [|k IH]; intros ingredients file H; simpl in H.
  - simplify_eq. exists []. split; [constructor|]. by rewrite app_nil_r.
  - rewrite next_lines_S.
    destruct (readline file) as [raw rest] eqn:Hrl.
    destruct (strip raw) as [|c0 l0] eqn:Hs; [done|].
    destruct (split (u " | ") (c0 :: l0)) as [|f1 [|f2 [|f3 [|f4 fs]]]] eqn:Hsp;
      try done.
    destruct (int f2) as [q|] eqn:Hint; [|done].
    apply IH in H as (new & Hnew & ->).
    exists (mkIngredient f1 q f3 :: new). split.
    + constructor; [|done]. unfold ingredient_of_line.
      change ((raw, rest).1) with raw. by rewrite Hs, Hsp, Hint.
    + by rewrite <- app_assoc.
Qed.

(** A pass that goes round again has stored the block it started on. *)
Lemma read_dish_block text cook_book j cook_book' file' :
  read_dish cook_book (after_lines j text) = Return (Some (cook_book', file')) ->
  exists dish_name ingredients j',
    block_at text j = Some (dish_name, ingredients, j')
    /\ cook_book' = dict_set dish_name ingredients cook_book
    /\ file' = after_lines j' text.
Proof.
  unfold read_dish, block_at. intros H.
  destruct (readline (after_lines j text)) as [raw file1] eqn:Hrl.
  assert (Hn0 : nth_line j text = raw) by (unfold nth_line; by rewrite Hrl).
  assert (H1 : after_lines (S j) text = file1) by by rewrite after_lines_S, Hrl.
  rewrite Hn0.
  destruct (strip raw) as [|c0 l0] eqn:Hs; [done|].
  destruct (readline file1) as [raw_count file2] eqn:Hrl1.
  assert (Hn1 : nth_line (S j) text = raw_count).
  { unfold nth_line. by rewrite H1, Hrl1. }
  assert (H2 : after_lines (j + 2) text = file2).
  { replace (j + 2) with (S (S j)) by lia. by rewrite after_lines_S, H1, Hrl1. }
  rewrite Hn1, H2.
  destruct (int (strip raw_count)) as [n|] eqn:Hint; [|done].
  destruct (read_ingredients _ _ _ _) as [|[ingredients file3]] eqn:Hr; [done|].
  pose proof (read_ingredients_result _ _ _ _ _ _ Hr) as [_ Hfile3].
  apply read_ingredients_lines in Hr as (new & Hnew & ->).
  apply mapM_Some in Hnew. rewrite Hnew.
  destruct (readline file3) as [sep file4] eqn:Hrl3.
  injection H as <- <-.
  exists (c0 :: l0), new, (j + 2 + S (Z.to_nat n)).
  split; [done|]. split; [done|].
  by rewrite after_lines_add, H2, after_lines_S, <- Hfile3, Hrl3.
Qed.

(** The pass that leaves the loop found a blank line, or the end of the
    text, where a dish name was due. *)
Lemma read_dish_end text cook_book j :
  read_dish cook_book (after_lines j text) = Return None ->
  strip (nth_line j text) = [].
Proof.
  unfold read_dish, nth_line. intros H.
  destruct (readline (after_lines j text)) as [raw file1]; simpl.
  destruct (strip raw) as [|c0 l0]; [done|].
  destruct (readline file1) as [raw_count file2].
  destruct (int _); [|done].
  destruct (read_ingredients _ _ _ _) as [|[ingredients file3]]; [done|].
  by destruct (readline file3).
Qed.

(** The loop stores the blocks of the text, one after the other. *)
Lemma read_loop_blocks text fuel cook_book j cook_book' :
  read_loop fuel cook_book (after_lines j text) = Some (Return cook_book') ->
  exists blocks,
    blocks_from text j blocks /\ cook_book' = store_blocks blocks cook_book.
Proof.
  revert cook_book j.
  induction fuel as [|fuel IH]; intros cook_book j H; [done|]. simpl in H.
  destruct (read_dish cook_book (after_lines j text))
    as [e|[[cook_book1 file1]|]] eqn:Hd; [done| |].
  - apply read_dish_block in Hd as (dish_name & ingredients & j' & Hb & -> & ->).
    apply IH in H as (blocks & Hblocks & ->).
    exists ((dish_name, ingredients) :: blocks). split; [|done].
    by eapply blocks_next.
  - simplify_eq. exists []. split; [|done].
    apply blocks_end. by eapply read_dish_end.
Qed.

Lemma find_app {A} (f : A -> bool) (l1 l2 : list A) :
  List.find f (l1 ++ l2)
  = match List.find f l1 with Some x => Some x | None => List.find f l2 end.
Proof.
  induction l1 as [|x l1 IH]; simpl; [done|]. by destruct (f x).
Qed.

(** What a name is bound to after the blocks have been stored: the
    ingredients of the last block that carries it, or what it was bound to
    before when no block does. *)
Lemma dict_get_store_blocks dish blocks cook_book :
  dict_get dish (store_blocks blocks cook_book)
  = match last_block dish blocks with
    | Some block => Some block.2
    | None => dict_get dish cook_book
    end.
Proof.
  unfold store_blocks, last_block. revert cook_book.
  induction blocks as [|[name ingredients] blocks IH]; intros cook_book; [done|].
  simpl. rewrite IH, find_app. 
  destruct (List.find _ (rev blocks)); [done|]. simpl.
  rewrite dict_get_set.
  destruct (decide (dish = name)) as [->|Hne].
  - by rewrite bool_decide_eq_true_2.
  - by rewrite bool_decide_eq_false_2.
Qed.

Lemma NoDup_keys_store_blocks blocks cook_book :
  NoDup (keys cook_book) -> NoDup (keys (store_blocks blocks cook_book)).
Proof.
  unfold store_blocks. revert cook_book.
  induction blocks as [|block blocks IH]; intros cook_book H; [done|].
  simpl. apply IH. by apply NoDup_keys_set.
Qed.

(** The text has one run of blocks. *)
Lemma blocks_from_unique text j blocks1 blocks2 :
  blocks_from text j blocks1 -> blocks_from text j blocks2 -> blocks1 = blocks2.
Proof.
  intros H1. revert blocks2.
  induction H1 as [j Hend|j dish_name ingredients j' blocks Hb _ IH];
    intros blocks2 H2; inversion H2 as [j0 Hend2|j0 d2 i2 j2 bs2 Hb2 Hrest2]; subst.
  - done.
  - unfold block_at in Hb2. by rewrite Hend in Hb2.
  - unfold block_at in Hb. by rewrite Hend2 in Hb.
  - rewrite Hb in Hb2. simplify_eq. f_equal. by apply IH.
Qed.

(** X8.  A returned cook book holds each dish name once, bound to the
    ingredients of the last block of the file that carries the name: the
    file is read as a run of blocks (a name line, a count line, as many
    ingredient lines, one line passed over) up to the first blank name
    line, a block with the name of an earlier one overwrites it, and a
    name that no block carries is not in the cook book. *)
Theorem read_cook_book_last_block_wins open_read file_path cook_book :
  read_cook_book open_read file_path = Some (Return cook_book) ->
  exists text blocks,
    open_read file_path = Return text
    /\ blocks_from text 0 blocks
    /\ cook_book = store_blocks blocks []
    /\ NoDup (keys cook_book)
    /\ forall dish,
         dict_get dish cook_book = snd <$> last_block dish blocks.
Proof.
  unfold read_cook_book. intros H.
  destruct (open_read file_path) as [e|text] eqn:Hopen; [by destruct e|].
  destruct (read_loop _ _ _) as [[[]|cook_book']|] eqn:Hl; try done.
  simplify_eq.
  apply (read_loop_blocks text _ [] 0) in Hl as (blocks & Hblocks & ->).
  exists text, blocks. split; [done|]. split; [done|]. split; [done|]. split.
  - apply NoDup_keys_store_blocks. constructor.
  - intros dish. rewrite dict_get_store_blocks.
    by destruct (last_block dish blocks).
Qed.

(** The dish of the first block is given again by the third. *)
Lemma read_cook_book_last_block_wins_witness :
  let open_read := one_file (u "recipes.txt") (u "Омлет
1
Яйцо | 2 | шт

Каша
1
Крупа | 50 | г

Омлет
1
Соль | 1 | г
") in
  let file_path := u "recipes.txt" in
  let cook_book := [(u "Омлет", [mkIngredient (u "Соль") 1 (u "г")]);
                    (u "Каша", [mkIngredient (u "Крупа") 50 (u "г")])] in
  exists text blocks,
    open_read file_path = Return text
    /\ blocks_from text 0 blocks
    /\ cook_book = store_blocks blocks []
    /\ NoDup (keys cook_book)
    /\ forall dish,
         dict_get dish cook_book = snd <$> last_block dish blocks.
Proof.
  intros open_read file_path cook_book.
  apply (read_cook_book_last_block_wins open_read file_path cook_book).
  vm_compute. reflexivity.
Defined.

Lemma lstrip_snoc l c :
  isspace c = false -> exists l', lstrip (l ++ [c]) = l' ++ [c].
Proof.
  intros Hc. induction l as [|x l IH]; simpl.
  - rewrite Hc. by exists [].
  - destruct (isspace x); [done|]. by exists (x :: l).
Qed.

Lemma lstrip_idem s : lstrip (lstrip s) = lstrip s.
Proof.
  induction s as [|c s IH]; simpl; [done|].
  destruct (isspace c) eqn:Hc; [done|]. simpl. by rewrite Hc.
Qed.

Lemma lstrip_head c t s : lstrip s = c :: t -> isspace c = false.
Proof.
  induction s as [|x s IH]; simpl; [done|].
  destruct (isspace x) eqn:Hx; [done|]. by intros [= <- <-].
Qed.

(** Stripping a stripped string changes nothing. *)
Lemma strip_idem s : strip (strip s) = strip s.
Proof.
  unfold strip, rstrip.
  destruct (lstrip s) as [|c t] eqn:Hl; [done|].
  pose proof (lstrip_head _ _ _ Hl) as Hc.
  destruct (lstrip_snoc (rev t) c Hc) as [l' Hl'].
  assert (Hz : lstrip (rev (c :: t)) = l' ++ [c]) by exact Hl'.
  rewrite Hz.
  assert (Hrz : rev (l' ++ [c]) = c :: rev l') by (by rewrite rev_app_distr).
  rewrite Hrz.
  assert (H1 : lstrip (c :: rev l') = c :: rev l') by (simpl; by rewrite Hc).
  rewrite H1.
  assert (H2 : rev (c :: rev l') = l' ++ [c]) by (simpl; by rewrite rev_involutive).
  rewrite H2. rewrite <- Hz, lstrip_idem, Hz. exact Hrz.
Qed.

Lemma Forall_keys_set {V} (P : str -> Prop) (k : str) (v : V) (d : dict str V) :
  Forall P (keys d) -> P k -> Forall P (keys (dict_set k v d)).
Proof.
  intros Hd Hk. rewrite keys_dict_set. destruct (dict_in k d); [done|].
  apply Forall_app. by repeat constructor.
Qed.

(** X9.  Every dish name in a returned cook book is non-empty and has no
    white space at its ends. *)
Theorem read_cook_book_names_stripped open_read file_path cook_book :
  read_cook_book open_read file_path = Some (Return cook_book) ->
  Forall (fun dish => dish <> [] /\ strip dish = dish) (keys cook_book).
Proof.
  apply (read_cook_book_invariant
           (fun cb => Forall (fun dish => dish <> [] /\ strip dish = dish) (keys cb))).
  - constructor.
  - intros text cb cb' _ Hall (j & n & ings & -> & Hne & _).
    apply Forall_keys_set; [done|]. split; [done|apply strip_idem].
Qed.

Lemma read_cook_book_names_stripped_witness :
  Forall (fun dish => dish <> [] /\ strip dish = dish)
    (keys [(u "Омлет с сыром", [mkIngredient (u "Соль") 1 (u "г")])]).
Proof.
  apply (read_cook_book_names_stripped (one_file (u "recipes.txt") (u "   Омлет с сыром  
1
Соль | 1 | г
")) (u "recipes.txt")).
  vm_compute. reflexivity.
Defined.

Lemma Forall_items_set {V} (P : str * V -> Prop) (k : str) (v : V) (d : dict str V) :
  Forall P d -> P (k, v) -> Forall P (dict_set k v d).
Proof.
  intros Hd Hk. induction Hd as [|[k0 v0] d H0 Hd IH]; simpl.
  - by repeat constructor.
  - destruct (decide (k = k0)) as [->|]; constructor; done.
Qed.

(** X10.  Every dish of a returned cook book has as many ingredients as
    the count line after one of the lines that carry its name
    announces. *)
Theorem read_cook_book_counts open_read file_path cook_book :
  read_cook_book open_read file_path = Some (Return cook_book) ->
  exists text,
    open_read file_path = Return text /\ Forall (declared text) cook_book.
Proof.
  intros H.
  destruct (open_read file_path) as [e|text] eqn:Hopen.
  { unfold read_cook_book in H. rewrite Hopen in H. by destruct e. }
  exists text. split; [done|].
  revert H. apply (read_cook_book_invariant (fun cb => Forall (declared text) cb)).
  - constructor.
  - intros text' cb cb' Ht Hall (j & n & ings & -> & Hne & Hint & Hlen).
    rewrite Hopen in Ht. simplify_eq.
    apply Forall_items_set; [done|]. by exists j, n.
Qed.

Lemma read_cook_book_counts_witness :
  exists text,
    one_file (u "recipes.txt") (u "Омлет
2
Яйцо | 2 | шт
Соль | 1 | г
") (u "recipes.txt") = Return text
    /\ Forall (declared text)
         [(u "Омлет", [mkIngredient (u "Яйцо") 2 (u "шт");
                       mkIngredient (u "Соль") 1 (u "г")])].
Proof.
  apply (read_cook_book_counts (one_file (u "recipes.txt") (u "Омлет
2
Яйцо | 2 | шт
Соль | 1 | г
")) (u "recipes.txt")).
  vm_compute. reflexivity.
Defined.

End ParserBlocks.
(* ===================================================================== *)
(** * Further properties of the aggregator                               *)
(* ===================================================================== *)

Section AggregatorMore.

Implicit Types (shop_list : ShopList) (cook_book : CookBook) (name dish : str).

Lemma dict_get_scale name person_count shop_list :
  dict_get name (scale person_count shop_list)
  = (fun e => mkEntry (entry_measure e) (entry_quantity e * person_count))
      <$> dict_get name shop_list.
Proof.
  induction shop_list as [|[k e] shop_list IH]; simpl; [done|].
  destruct (decide (name = k)); [done|exact IH].
Qed.

Lemma dict_set_scale name e person_count shop_list :
  dict_set name (mkEntry (entry_measure e) (entry_quantity e * person_count))
    (scale person_count shop_list)
  = scale person_count (dict_set name e shop_list).
Proof.
  induction shop_list as [|[k e0] shop_list IH]; simpl; [done|].
  destruct (decide (name = k)); simpl; [done|]. by rewrite IH.
Qed.

Lemma add_ingredient_scale person_count shop_list i :
  add_ingredient person_count (scale person_count shop_list) i
  = scale person_count (add_ingredient 1 shop_list i).
Proof.
  unfold add_ingredient. rewrite dict_get_scale.
  destruct (dict_get (ingredient_name i) shop_list) as [e|]; simpl;
    rewrite <- dict_set_scale; simpl; do 2 f_equal; lia.
Qed.

Lemma add_ingredients_scale person_count ingredients shop_list :
  fold_left (add_ingredient person_count) ingredients (scale person_count shop_list)
  = scale person_count (fold_left (add_ingredient 1) ingredients shop_list).
Proof.
  revert shop_list.
  induction ingredients as [|i ingredients IH]; intros shop_list; simpl; [done|].
  by rewrite add_ingredient_scale, IH.
Qed.

(** X11.  The shopping list for [person_count] persons is the list for one
    person with every quantity multiplied by [person_count]: the same
    names in the same order with the same measures, and the same lines
    printed.  No value of [person_count] is turned away; with 0 every
    name is listed with quantity 0. *)
Theorem shop_list_scales dishes person_count cook_book :
  get_shop_list_by_dishes dishes person_count cook_book
  = (scale person_count (get_shop_list_by_dishes dishes 1 cook_book).1,
     (get_shop_list_by_dishes dishes 1 cook_book).2).
Proof.
  rewrite !get_shop_list_by_dishes_flat. simpl. f_equal.
  apply (add_ingredients_scale person_count _ []).
Qed.

Lemma first_named_None_total name person_count ingredients :
  first_named name ingredients = None ->
  recipe_total name person_count ingredients = 0%Z.
Proof.
  unfold first_named.
  induction ingredients as [|i ingredients IH]; [done|].
  rewrite recipe_total_cons. simpl.
  destruct (bool_decide (ingredient_name i = name)); [done|]. intros H.
  by rewrite IH.
Qed.

(** The quantity listed for a name, listed or not, is the total of its
    occurrences in the requested recipes. *)
Lemma quantity_of_shop_list name dishes person_count cook_book :
  quantity_of name (get_shop_list_by_dishes dishes person_count cook_book).1
  = recipe_total name person_count (concat (requested_recipes dishes cook_book)).
Proof.
  rewrite get_shop_list_by_dishes_flat. simpl. unfold quantity_of.
  rewrite dict_get_add_ingredients. simpl.
  destruct (first_named name _) eqn:Hf; [done|].
  by rewrite first_named_None_total.
Qed.

(** X12.  Quantities add up over dish lists: what the shopping list of two
    dish lists put together asks of a name is the sum of what the two
    shopping lists ask of it. *)
Theorem shop_list_additive name dishes1 dishes2 person_count cook_book :
  quantity_of name
    (get_shop_list_by_dishes (dishes1 ++ dishes2) person_count cook_book).1
  = (quantity_of name (get_shop_list_by_dishes dishes1 person_count cook_book).1
     + quantity_of name (get_shop_list_by_dishes dishes2 person_count cook_book).1)%Z.
Proof.
  rewrite !quantity_of_shop_list. unfold requested_recipes.
  by rewrite omap_app, concat_app, recipe_total_app.
Qed.

Lemma requested_Permutation dishes1 dishes2 cook_book :
  Permutation dishes1 dishes2 ->
  Permutation (concat (requested_recipes dishes1 cook_book))
    (concat (requested_recipes dishes2 cook_book)).
Proof.
  unfold requested_recipes.
  induction 1 as [|d l1 l2 _ IH|d1 d2 l|l1 l2 l3 _ IH1 _ IH2]; simpl.
  - done.
  - destruct (dict_get d cook_book); simpl; [by apply Permutation_app_head|done].
  - destruct (dict_get d1 cook_book), (dict_get d2 cook_book); simpl; try done.
    rewrite !app_assoc. apply Permutation_app_tail, Permutation_app_comm.
  - by etransitivity.
Qed.

Lemma recipe_total_Permutation name person_count l1 l2 :
  Permutation l1 l2 ->
  recipe_total name person_count l1 = recipe_total name person_count l2.
Proof.
  induction 1 as [|i l1 l2 _ IH|i1 i2 l|l1 l2 l3 _ IH1 _ IH2].
  - done.
  - by rewrite !recipe_total_cons, IH.
  - rewrite !recipe_total_cons. lia.
  - congruence.
Qed.

(** X13.  The order of the dish list does not matter to the quantities:
    two dish lists that are permutations of each other list the same names
    with the same quantities (the order of the entries and, where measures
    differ, the measure kept may change). *)
Theorem shop_list_order_irrelevant name dishes1 dishes2 person_count cook_book :
  Permutation dishes1 dishes2 ->
  quantity_of name (get_shop_list_by_dishes dishes1 person_count cook_book).1
  = quantity_of name (get_shop_list_by_dishes dishes2 person_count cook_book).1
  /\ (In name (keys (get_shop_list_by_dishes dishes1 person_count cook_book).1)
      <-> In name (keys (get_shop_list_by_dishes dishes2 person_count cook_book).1)).
Proof.
  intros Hperm.
  pose proof (requested_Permutation _ _ cook_book Hperm) as Hall. split.
  - rewrite !quantity_of_shop_list. by apply recipe_total_Permutation.
  - rewrite !get_shop_list_by_dishes_flat. simpl.
    rewrite !dict_get_keys, !dict_get_add_ingredients. simpl.
    assert (Hsome : forall l, is_Some (match first_named name l with
                                       | Some first =>
                                           Some (mkEntry (measure first)
                                                   (recipe_total name person_count l))
                                       | None => None
                                       end)
                              <-> exists i, In i l /\ ingredient_name i = name).
    { intros l. rewrite <- first_named_Some.
      destruct (first_named name l); split; intros [? ?]; by eauto. }
    rewrite !Hsome. split; intros (i & Hi & Hn); exists i; (split; [|done]).
    + by eapply Permutation_in.
    + eapply Permutation_in; [symmetry; exact Hall|done].
Qed.

Lemma shop_list_order_irrelevant_witness :
  quantity_of (u "salt") (get_shop_list_by_dishes [u "A"; u "B"] 2 cook_book_AB).1
  = quantity_of (u "salt") (get_shop_list_by_dishes [u "B"; u "A"] 2 cook_book_AB).1
  /\ (In (u "salt") (keys (get_shop_list_by_dishes [u "A"; u "B"] 2 cook_book_AB).1)
      <-> In (u "salt") (keys (get_shop_list_by_dishes [u "B"; u "A"] 2 cook_book_AB).1)).
Proof.
  apply (shop_list_order_irrelevant (u "salt") [u "A"; u "B"] [u "B"; u "A"] 2 cook_book_AB).
  apply perm_swap.
Defined.

End AggregatorMore.

(* ===================================================================== *)
(** * Further properties of the file merger                              *)
(* ===================================================================== *)

Section MergerMore.

Variable os : OS.
Implicit Types (directory output_file content : str) (names : list str)
  (files_info records : dict str (list str)).

(** The first file that cannot be read ends the first loop. *)
Lemma collect_fails directory pre name post files_info e :
  (forall n, In n pre -> isfile os (path_join directory n) = true ->
             exists lines, readlines os (path_join directory n) = Return lines) ->
  isfile os (path_join directory name) = true ->
  readlines os (path_join directory name) = Raise e ->
  collect os directory (pre ++ name :: post) files_info = Raise e.
Proof.
  intros Hpre Hfile Hread. revert files_info.
  induction pre as [|n pre IH]; intros files_info; simpl.
  - by rewrite Hfile, Hread.
  - destruct (isfile os (path_join directory n)) eqn:Hn.
    + destruct (Hpre n) as [lines ->]; [by left|done|]. simpl.
      apply IH. intros n' Hn'. apply Hpre. by right.
    + apply IH. intros n' Hn'. apply Hpre. by right.
Qed.

(** X14.  When a regular file of the directory cannot be read, the first
    such file in the order of enumeration decides the outcome: nothing is
    merged, and [merge_files] raises [ValueError] with the text of that
    file's exception, or, when that exception is a [FileNotFoundError],
    a [FileNotFoundError] that names the directory. *)
Theorem merge_files_unreadable directory output_file pre name post e :
  listdir os directory = Return (pre ++ name :: post) ->
  (forall n, In n pre -> isfile os (path_join directory n) = true ->
             exists lines, readlines os (path_join directory n) = Return lines) ->
  isfile os (path_join directory name) = true ->
  readlines os (path_join directory name) = Raise e ->
  merge_files os directory output_file = Raise (merge_error directory e).
Proof.
  intros Hlist Hpre Hfile Hread. unfold merge_files, merge_body.
  rewrite Hlist. simpl. rewrite (collect_fails _ _ _ _ _ e) by done.
  by destruct e.
Qed.

(** No regular file: every name is passed over. *)
Lemma collect_no_files directory names files_info :
  (forall name, In name names -> isfile os (path_join directory name) = false) ->
  collect os directory names files_info = Return files_info.
Proof.
  induction names as [|name names IH]; intros Hno; simpl; [done|].
  rewrite Hno by (by left). apply IH. intros n Hn. apply Hno. by right.
Qed.

(** X16.  A directory without regular files (empty, or holding only
    subdirectories) merges into an empty output file: the file is opened
    for writing, nothing is written, no entry is read. *)
Theorem merge_files_no_files directory output_file names :
  listdir os directory = Return names ->
  (forall name, In name names -> isfile os (path_join directory name) = false) ->
  open_write os output_file = Return tt ->
  close_write os output_file [] = Return tt ->
  merge_files os directory output_file = Return [].
Proof.
  intros Hlist Hno Hopen Hclose. unfold merge_files, merge_body.
  rewrite Hlist. simpl. rewrite collect_no_files by done. simpl.
  rewrite Hopen. simpl. by rewrite Hclose.
Qed.

Lemma contains_concat (x : str) (l : list str) : In x l -> contains x (concat l).
Proof.
  intros (l1 & l2 & ->)%in_split.
  exists (concat l1), (concat l2). by rewrite concat_app.
Qed.

(** X15.  When every operation succeeds, each regular file of the listing
    has its block in the output, whatever its name: no file is left out,
    not even a file that is the output file itself, left there by an
    earlier call. *)
Theorem merge_files_includes_every_file directory output_file names
    (lines_of : str -> list str) name :
  listdir os directory = Return names ->
  NoDup names ->
  (forall name, In name names ->
     isfile os (path_join directory name) = true ->
     readlines os (path_join directory name) = Return (lines_of name)) ->
  open_write os output_file = Return tt ->
  (forall content data, write_fails os output_file content data = None) ->
  (forall content, close_write os output_file content = Return tt) ->
  In name names ->
  isfile os (path_join directory name) = true ->
  exists content,
    merge_files os directory output_file = Return content
    /\ contains (block (name, lines_of name)) content.
Proof.
  intros Hlist Hnd Hread Hopen Hwrite Hclose Hin Hfile.
  eexists. split.
  - unfold merge_files, merge_body. rewrite Hlist. simpl.
    rewrite (collect_all os directory lines_of) by done. simpl.
    rewrite collect_fold_NoDup by done. simpl.
    rewrite Hopen. simpl. rewrite write_records_ok by done. simpl.
    by rewrite Hclose.
  - apply contains_concat. apply in_map.
    eapply Permutation_in; [symmetry; apply sorted_perm|].
    apply (in_map (fun n => (n, lines_of n))).
    apply filter_In. done.
Qed.

End MergerMore.

Section MergerMoreExamples.

Lemma merge_files_unreadable_witness :
  let e := OtherException (u "PermissionError") (u "[Errno 13] Permission denied") in
  let os := unreadable (flat_dir (u "files") three_files) (u "files/b.txt") e in
  merge_files os (u "files") (u "files/merged_file.txt")
  = Raise (merge_error (u "files") e).
Proof.
  intros e os.
  apply (merge_files_unreadable os (u "files") (u "files/merged_file.txt")
           [u "a.txt"] (u "b.txt") [u "c.txt"] e).
  - vm_compute. reflexivity.
  - intros n [<-|[]] _. eexists. vm_compute. reflexivity.
  - vm_compute. reflexivity.
  - vm_compute. reflexivity.
Defined.

Lemma merge_files_no_files_witness :
  let os := flat_dir (u "files") [] in
  merge_files os (u "files") (u "files/merged_file.txt") = Return [].
Proof.
  intros os.
  apply (merge_files_no_files os (u "files") (u "files/merged_file.txt") []).
  - vm_compute. reflexivity.
  - intros name [].
  - vm_compute. reflexivity.
  - vm_compute. reflexivity.
Defined.

(** The second call of [main]: the output of the first call lies in the
    directory and is merged with the rest. *)
Lemma merge_files_includes_every_file_witness :
  exists content,
    merge_files (flat_dir (u "files") files_after_merge)
      (u "files") (u "files/merged_file.txt") = Return content
    /\ contains (block (u "merged_file.txt", [u "earlier output
"])) content.
Proof.
  refine (merge_files_includes_every_file (flat_dir (u "files") files_after_merge)
            (u "files") (u "files/merged_file.txt") (keys files_after_merge)
            (fun name => default [] (dict_get name files_after_merge))
            (u "merged_file.txt")
            eq_refl _ _ eq_refl (fun _ _ => eq_refl) (fun _ => eq_refl) _ eq_refl).
  - apply (bool_decide_unpack _). vm_compute. reflexivity.
  - intros name [<-|[<-|[<-|[<-|[]]]]] _; vm_compute; reflexivity.
  - vm_compute. tauto.
Defined.

End MergerMoreExamples.
Section AggregatorOrder.

Implicit Types (shop_list : ShopList) (cook_book : CookBook) (name dish : str).

Lemma first_occurrences_ext seen1 seen2 names :
  (forall x, x ∈ seen1 <-> x ∈ seen2) ->
  first_occurrences seen1 names = first_occurrences seen2 names.
Proof.
  revert seen1 seen2.
  induction names as [|n names IH]; intros seen1 seen2 Hext; simpl; [done|].
  rewrite (bool_decide_ext _ _ (Hext n)).
  destruct (bool_decide (n ∈ seen2)); [by apply IH|].
  f_equal. apply IH. intros x. rewrite !elem_of_cons. by rewrite Hext.
Qed.

Lemma keys_add_ingredient person_count shop_list i :
  keys (add_ingredient person_count shop_list i)
  = if bool_decide (ingredient_name i ∈ keys shop_list)
    then keys shop_list else keys shop_list ++ [ingredient_name i].
Proof.
  unfold add_ingredient.
  destruct (dict_get (ingredient_name i) shop_list) as [e|] eqn:Hg;
    rewrite keys_dict_set; unfold dict_in; rewrite Hg.
  - rewrite bool_decide_eq_true_2; [done|].
    apply list_elem_of_In, dict_get_keys. by eexists.
  - rewrite bool_decide_eq_false_2; [done|].
    intros [? Hs]%list_elem_of_In%dict_get_keys. congruence.
Qed.

Lemma keys_add_ingredients person_count ingredients shop_list :
  keys (fold_left (add_ingredient person_count) ingredients shop_list)
  = keys shop_list
    ++ first_occurrences (keys shop_list) (map ingredient_name ingredients).
Proof.
  revert shop_list.
  induction ingredients as [|i ingredients IH]; intros shop_list; simpl.
  - by rewrite app_nil_r.
  - rewrite IH, keys_add_ingredient.
    destruct (bool_decide (ingredient_name i ∈ keys shop_list)); [done|].
    rewrite <- app_assoc. simpl. do 2 f_equal.
    apply first_occurrences_ext. intros x.
    rewrite elem_of_app, !elem_of_cons, elem_of_nil. tauto.
Qed.

(** X18.  The entries of the shopping list stand in the order in which
    their names are first met, going through the requested dishes in the
    order of the dish list and through each recipe in the order of its
    ingredients. *)
Theorem shop_list_order dishes person_count cook_book :
  keys (get_shop_list_by_dishes dishes person_count cook_book).1
  = first_occurrences []
      (map ingredient_name (concat (requested_recipes dishes cook_book))).
Proof.
  rewrite get_shop_list_by_dishes_flat. simpl.
  by rewrite keys_add_ingredients.
Qed.

End AggregatorOrder.

Section StoreCalls.

Implicit Types (h : list Store.object) (s : Store.state)
  (shop_list : dict Store.value Store.loc) (entries : ShopList).

Lemma entry_at_prefix (h0 : list Store.object) h item e :
  h0 `prefix_of` h -> Store.entry_at h0 item = Some e ->
  Store.entry_at h item = Some e.
Proof.
  unfold Store.entry_at. intros Hpre H.
  destruct item.1; [done|].
  destruct (h0 !! item.2) as [o|] eqn:Hl; [|done].
  assert (h !! item.2 = Some o) as -> by (by eapply prefix_lookup_Some). done.
Qed.

Lemma cook_book_at_prefix (h0 : list Store.object) h cook_book_refs
    (cook_book : CookBook) :
  h0 `prefix_of` h ->
  Store.cook_book_at h0 cook_book_refs = Some cook_book ->
  Store.cook_book_at h cook_book_refs = Some cook_book.
Proof.
  unfold Store.cook_book_at. intros Hpre H.
  apply mapM_Some in H. apply mapM_Some.
  eapply Forall2_impl; [exact H|].
  intros [d ls] [d' ings] Hitem. simpl in *.
  destruct (mapM (Store.ingredient_at h0) ls) as [ings0|] eqn:Hm; [|done].
  simpl in Hitem. simplify_eq.
  apply mapM_Some in Hm.
  assert (mapM (Store.ingredient_at h) ls = Some ings) as ->; [|done].
  apply mapM_Some. eapply Forall2_impl; [exact Hm|].
  intros l i. by apply ingredient_at_prefix.
Qed.

(** X17.  The function keeps nothing from one call to the next.  Over a
    store that holds the cook book, a second call with the same arguments
    returns a shopping list that reads as the first one did, made of
    objects of its own; the list of the first call still reads the same
    after the second call. *)
Theorem get_shop_list_by_dishes_repeatable dishes person_count cook_book_refs
    (cook_book : CookBook) s :
  Store.cook_book_at (Store.heap s) cook_book_refs = Some cook_book ->
  exists s1 shop_list1 s2 shop_list2,
    Store.get_shop_list_by_dishes dishes person_count cook_book_refs s
    = (s1, Return shop_list1)
    /\ Store.get_shop_list_by_dishes dishes person_count cook_book_refs s1
       = (s2, Return shop_list2)
    /\ Store.shop_list_at (Store.heap s1) shop_list1
       = Some (get_shop_list_by_dishes dishes person_count cook_book).1
    /\ Store.shop_list_at (Store.heap s2) shop_list2
       = Some (get_shop_list_by_dishes dishes person_count cook_book).1
    /\ Store.shop_list_at (Store.heap s2) shop_list1
       = Some (get_shop_list_by_dishes dishes person_count cook_book).1
    /\ forall l, l ∈ map snd shop_list1 -> l ∉ map snd shop_list2.
Proof.
  intros Hcb.
  destruct (get_shop_list_by_dishes_refines dishes person_count cook_book_refs
              cook_book s Hcb) as (s1 & shop1 & Hrun1 & Hshop1 & _).
  destruct (get_shop_list_by_dishes_keeps dishes person_count cook_book_refs s)
    as [Hpre1 _]. rewrite Hrun1 in Hpre1. simpl in Hpre1.
  pose proof (cook_book_at_prefix _ _ _ _ Hpre1 Hcb) as Hcb1.
  destruct (get_shop_list_by_dishes_refines dishes person_count cook_book_refs
              cook_book s1 Hcb1) as (s2 & shop2 & Hrun2 & Hshop2 & _).
  destruct (get_shop_list_by_dishes_keeps dishes person_count cook_book_refs s1)
    as [Hpre2 Hfresh2]. rewrite Hrun2 in Hpre2, Hfresh2. simpl in *.
  specialize (Hfresh2 _ eq_refl).
  exists s1, shop1, s2, shop2. repeat (split; [done|]).
  unfold Store.shop_list_at in *. apply mapM_Some in Hshop1. split.
  - apply mapM_Some. eapply Forall2_impl; [exact Hshop1|].
    intros item e. by apply entry_at_prefix.
  - intros l Hl1 Hl2.
    apply (represents_locs_lt _ _ _ _ Hshop1) in Hl1.
    apply list_elem_of_In, in_map_iff in Hl2 as ([k l'] & Heq & Hin).
    simpl in Heq. subst l'.
    unfold Store.fresh_for in Hfresh2. rewrite Forall_forall in Hfresh2.
    apply list_elem_of_In, Hfresh2 in Hin. simpl in Hin. lia.
Qed.

Lemma get_shop_list_by_dishes_repeatable_witness :
  exists s1 shop_list1 s2 shop_list2,
    Store.get_shop_list_by_dishes [u "A"; u "B"] 2 Store.cook_book_refs_AB
      Store.store_AB = (s1, Return shop_list1)
    /\ Store.get_shop_list_by_dishes [u "A"; u "B"] 2 Store.cook_book_refs_AB s1
       = (s2, Return shop_list2)
    /\ Store.shop_list_at (Store.heap s1) shop_list1
       = Some (get_shop_list_by_dishes [u "A"; u "B"] 2 cook_book_AB).1
    /\ Store.shop_list_at (Store.heap s2) shop_list2
       = Some (get_shop_list_by_dishes [u "A"; u "B"] 2 cook_book_AB).1
    /\ Store.shop_list_at (Store.heap s2) shop_list1
       = Some (get_shop_list_by_dishes [u "A"; u "B"] 2 cook_book_AB).1
    /\ forall l, l ∈ map snd shop_list1 -> l ∉ map snd shop_list2.
Proof.
  apply (get_shop_list_by_dishes_repeatable [u "A"; u "B"] 2
           Store.cook_book_refs_AB cook_book_AB Store.store_AB).
  vm_compute. reflexivity.
Defined.

End StoreCalls.
(* ===================================================================== *)
(** * Missing dishes and the standard output                             *)
(* ===================================================================== *)

Section MissingDishes.

Implicit Types (s : Store.state) (shop_list : dict Store.value Store.loc).






(** The messages of the encoder on runs of surrogates. *)
Example utf8_refuses_samples :
  Terminal.utf8_refuses (u "Блюдо 'A' не найдено в книге рецептов.") = None
  /\ Terminal.utf8_refuses [56448%N]
     = Some (OtherException (u "UnicodeEncodeError")
               (u "'utf-8' codec can't encode character '\udc80' in position 0: surrogates not allowed"))
  /\ Terminal.utf8_refuses [120; 57343; 55296; 56319; 121; 55296]%N
     = Some (OtherException (u "UnicodeEncodeError")
               (u "'utf-8' codec can't encode characters in position 1-3: surrogates not allowed")).
Proof. split; [|split]; vm_compute; reflexivity. Qed.

End MissingDishes.
